(** * H-DATA -- AI Data Doctor: the column diagnostic and the automatic
      correction pass of [app.py]

    The script loads a table into the pandas frame [df], builds the
    diagnostic table [diag_df = analyse_data(df)] and, when the user ticks
    the box, walks over the rows of [diag_df] and repairs [df] in place.

    Embedding.
    - A pandas [Series] is its dtype and the list of its cells; a
      [DataFrame] is the list of its labelled columns, in column order.
    - Numbers are read in two ways.  The frame and every operation on it
      are given over exact rationals: [mean], [std] and [median] are then
      the arithmetic of real numbers, the standard deviation is kept as
      its square (the sample variance) and the test
      [|x - mean| > 3 * std] is decided on squares; [gt_3std_real]
      relates it to the test written with a square root over the reals.
      Beside it, the statistics of one [float64] column are given as the
      machine computes them, in IEEE 754 binary64 ([f64_mean], [f64_std],
      [f64_median] and the two places of the script that use them), so
      that the places where rounding, underflow or overflow make the
      program depart from the exact rule can be exhibited.  What is
      stated of the exact reading alone is stated on values where the two
      agree, or does not depend on the arithmetic.
    - The pandas calls follow the library as the script uses it:
      [isnull], [mean], [std] (ddof = 1) and [median] skip missing cells;
      [duplicated] keeps the first occurrence and takes missing cells as
      equal to one another; [df[col].fillna(v, inplace=True)] writes
      through to [df] (pandas before copy-on-write).
    - Python exceptions are the [Raise] results of the [result] monad.
    - The frame [df] is one object of the interpreter; the correction loop
      works on a store of objects and writes the object behind [df]. *)

From Stdlib Require Import String List Bool Arith Lia ZArith QArith.
From Stdlib Require Import Permutation Sorted Reals Qreals Psatz SpecFloat.
Import ListNotations.

Local Open Scope string_scope.
Local Open Scope nat_scope.
Local Open Scope list_scope.

(** ** Cells, series and frames *)

(** The dtypes a loaded column can have, as far as the script tells them
    apart: [np.int64], [np.float64], and [object] for text. *)
Inductive dtype := Int64 | Float64 | Object.

(** One cell.  [NaN] is the missing value ([isnull] is true on it). *)
Inductive cell :=
| NaN
| Num (q : Q)
| Str (s : string).

Record Series := mkSeries { dtype_of : dtype; values : list cell }.

Definition DataFrame := list (string * Series).

(** [df.columns] *)
Definition columns (df : DataFrame) : list string := map fst df.

(** [len(df)] *)
Definition nrows (df : DataFrame) : nat :=
  match df with
  | [] => 0
  | (_, s) :: _ => length (values s)
  end.

(** A well-formed frame: distinct labels, every column of [n] rows. *)
Definition frame_ok (n : nat) (df : DataFrame) : Prop :=
  NoDup (columns df) /\
  Forall (fun cs => length (values (snd cs)) = n) df.

(** ** Series operations *)

(** [Series.isnull()] on one cell. *)
Definition isnull (c : cell) : bool :=
  match c with NaN => true | _ => false end.

(** [s.isnull().sum()], and likewise the sum of any boolean mask. *)
Definition mask_sum (m : list bool) : nat :=
  length (filter (fun b => b) m).

Definition isnull_sum (s : Series) : nat :=
  mask_sum (map isnull (values s)).

(** [dtype in [np.float64, np.int64]] *)
Definition is_numeric (d : dtype) : bool :=
  match d with Int64 | Float64 => true | Object => false end.

(** The numbers of a column, missing cells skipped ([skipna=True]). *)
Fixpoint present (cs : list cell) : list Q :=
  match cs with
  | [] => []
  | Num q :: cs' => q :: present cs'
  | _ :: cs' => present cs'
  end.

Definition Qsum (xs : list Q) : Q := fold_right Qplus 0%Q xs.

Definition Qofnat (n : nat) : Q := inject_Z (Z.of_nat n).

(** [Series.mean()]: [None] stands for the [nan] of an empty column. *)
Definition mean (cs : list cell) : option Q :=
  let xs := present cs in
  match xs with
  | [] => None
  | _ => Some (Qsum xs / Qofnat (length xs))%Q
  end.

(** The square of [Series.std()] (ddof = 1): the sum of the squared
    deviations from the mean over [count - 1]; [nan] when fewer than two
    values are present. *)
Definition variance (cs : list cell) : option Q :=
  let xs := present cs in
  match mean cs with
  | None => None
  | Some avg =>
      if length xs <=? 1 then None
      else Some (Qsum (map (fun x => (avg - x) * (avg - x)) xs)
                 / Qofnat (length xs - 1))%Q
  end.

Definition Qlt_bool (x y : Q) : bool := negb (Qle_bool y x).

(** [abs(x - mean) > 3 * std] with [std = sqrt var]: both sides are
    non-negative, so the test is [(x - mean)^2 > 9 * var].  A comparison
    with [nan] on either side is false. *)
Definition gt_3std (mu var : option Q) (c : cell) : bool :=
  match c, mu, var with
  | Num x, Some m, Some v => Qlt_bool (9 * v) ((x - m) * (x - m))
  | _, _, _ => false
  end.

(** [(s - s.mean()).abs() > 3 * s.std()] *)
Definition outlier_mask (cs : list cell) : list bool :=
  map (gt_3std (mean cs) (variance cs)) cs.

(** Insertion sort of the present numbers, for the median. *)
Fixpoint Qinsert (x : Q) (l : list Q) : list Q :=
  match l with
  | [] => [x]
  | y :: l' => if Qle_bool x y then x :: l else y :: Qinsert x l'
  end.

Definition Qsort (l : list Q) : list Q := fold_right Qinsert [] l.

(** [Series.median()]: the middle of the sorted present numbers, the mean
    of the two middle ones when their count is even, [nan] when none. *)
Definition median (cs : list cell) : option Q :=
  let xs := Qsort (present cs) in
  let n := length xs in
  match n with
  | 0 => None
  | _ =>
      if Nat.even n
      then Some (Qred ((nth (n / 2 - 1) xs 0 + nth (n / 2) xs 0) / 2))%Q
      else Some (Qred (nth (n / 2) xs 0%Q))
  end.

(** Equality of cells as the hash table of [duplicated] sees it: missing
    equals missing, numbers by value, text by characters. *)
Definition cell_eqb (a b : cell) : bool :=
  match a, b with
  | NaN, NaN => true
  | Num x, Num y => Qeq_bool x y
  | Str s, Str t => String.eqb s t
  | _, _ => false
  end.

(** [Series.duplicated()] (keep = 'first'): a cell is marked when an equal
    cell was met before it. *)
Fixpoint duplicated_from (seen : list cell) (cs : list cell) : list bool :=
  match cs with
  | [] => []
  | c :: cs' =>
      if existsb (cell_eqb c) seen
      then true :: duplicated_from seen cs'
      else false :: duplicated_from (c :: seen) cs'
  end.

Definition duplicated (cs : list cell) : list bool := duplicated_from [] cs.

(** [mask.any()] *)
Definition mask_any (m : list bool) : bool := existsb (fun b => b) m.

(** ** The diagnostic: [analyse_data] *)

(** One row of the diagnostic table, with the column names of the source. *)
Record issue := mkIssue {
  Colonne : string;
  Probleme : string;
  NbOccurrences : nat;
  PropositionIA : string
}.

Definition lbl_manquantes : string := "Valeurs manquantes".
Definition lbl_aberrantes : string := "Valeurs aberrantes".
Definition lbl_doublons : string := "Doublons".

(** The body of the loop over [df.columns], for the column [col] whose
    series [df[col]] is [s]: up to three [diag.append]. *)
Definition analyse_col (diag : list issue) (col : string) (s : Series)
  : list issue :=
  let diag :=
    if 0 <? isnull_sum s
    then diag ++ [mkIssue col lbl_manquantes (isnull_sum s)
                    "Remplacer par moyenne/médiane"]
    else diag in
  let diag :=
    if is_numeric (dtype_of s)
    then
      let outliers := mask_sum (outlier_mask (values s)) in
      if 0 <? outliers
      then diag ++ [mkIssue col lbl_aberrantes outliers
                      "Remplacer par médiane"]
      else diag
    else diag in
  if mask_any (duplicated (values s))
  then diag ++ [mkIssue col lbl_doublons (mask_sum (duplicated (values s)))
                  "Supprimer doublons"]
  else diag.

(** [analyse_data(df)].  Column labels of a loaded frame are distinct, so
    [df[col]] is the series listed under [col]. *)
Definition analyse_data (df : DataFrame) : list issue :=
  fold_left (fun diag cs => analyse_col diag (fst cs) (snd cs)) df [].

(** ** Exceptions *)

Inductive exn := KeyError | TypeError.

Inductive result (A : Type) :=
| Ok (a : A)
| Raise (e : exn).
Arguments Ok {A} a.
Arguments Raise {A} e.

Definition bind {A B} (m : result A) (k : A -> result B) : result B :=
  match m with
  | Ok a => k a
  | Raise e => Raise e
  end.

Notation "x <- m ;; k" := (bind m (fun x => k))
  (at level 61, m at next level, right associativity).

(** ** Frame operations used by the correction loop *)

(** [df[col]]: the series labelled [col]; [KeyError] when there is none. *)
Fixpoint getitem (df : DataFrame) (col : string) : result Series :=
  match df with
  | [] => Raise KeyError
  | (c, s) :: df' => if String.eqb c col then Ok s else getitem df' col
  end.

(** [df[col] = s] on an existing label: the column is replaced where it
    stands. *)
Fixpoint setitem (df : DataFrame) (col : string) (s : Series) : DataFrame :=
  match df with
  | [] => [(col, s)]
  | (c, s0) :: df' =>
      if String.eqb c col then (c, s) :: df' else (c, s0) :: setitem df' col s
  end.

(** [needle in hay] on Python strings. *)
Fixpoint contains (needle hay : string) : bool :=
  match hay with
  | EmptyString => String.prefix needle hay
  | String _ hay' => String.prefix needle hay || contains needle hay'
  end.

(** [Series.fillna(v)]: a [nan] filler leaves the cells as they are. *)
Definition fillna (v : option Q) (cs : list cell) : list cell :=
  match v with
  | None => cs
  | Some q => map (fun c => if isnull c then Num q else c) cs
  end.

(** [np.where(mask, v, cs)], with [nan] for a missing [v]. *)
Definition np_where (mask : list bool) (v : option Q) (cs : list cell)
  : list cell :=
  map (fun bc : bool * cell =>
         if fst bc then match v with Some q => Num q | None => NaN end
         else snd bc)
      (combine mask cs).

(** Boolean indexing: the entries whose mask bit is set. *)
Fixpoint keep_rows {A} (mask : list bool) (l : list A) : list A :=
  match mask, l with
  | b :: mask', x :: l' =>
      if b then x :: keep_rows mask' l' else keep_rows mask' l'
  | _, _ => []
  end.

(** [if df[col].dtype in [np.float64, np.int64]:
        df[col].fillna(df[col].median(), inplace=True)] *)
Definition remedy_manquantes (col : string) (df : DataFrame)
  : result DataFrame :=
  s <- getitem df col ;;
  if is_numeric (dtype_of s)
  then Ok (setitem df col
             (mkSeries (dtype_of s) (fillna (median (values s)) (values s))))
  else Ok df.

(** [mean, std = df[col].mean(), df[col].std()
     df[col] = np.where((df[col] - mean).abs() > 3*std,
                        df[col].median(), df[col])]
    The mean of a text column raises [TypeError]; the array that
    [np.where] builds from a number and a numeric column is [float64]. *)
Definition remedy_aberrantes (col : string) (df : DataFrame)
  : result DataFrame :=
  s <- getitem df col ;;
  if is_numeric (dtype_of s)
  then
    let mean_ := mean (values s) in
    let var_ := variance (values s) in
    Ok (setitem df col
          (mkSeries Float64
             (np_where (map (gt_3std mean_ var_) (values s))
                       (median (values s)) (values s))))
  else Raise TypeError.

(** [df[mask]]: the rows whose mask bit is set, in every column. *)
Definition frame_rows (mask : list bool) (df : DataFrame) : DataFrame :=
  map (fun cs : string * Series =>
         (fst cs, mkSeries (dtype_of (snd cs))
                           (keep_rows mask (values (snd cs)))))
      df.

(** [df.drop_duplicates(subset=[col], inplace=True)]: the rows whose cell
    in [col] is not marked by [duplicated] are kept. *)
Definition remedy_doublons (col : string) (df : DataFrame)
  : result DataFrame :=
  s <- getitem df col ;;
  Ok (frame_rows (map negb (duplicated (values s))) df).

(** ** The correction loop *)

(** The objects of the interpreter: every reference holds a frame. *)
Definition ref := nat.
Definition store := ref -> DataFrame.

Definition store_set (h : store) (r : ref) (d : DataFrame) : store :=
  fun r' => if Nat.eqb r' r then d else h r'.

(** A statement that rewrites the frame behind [r] where it lies. *)
Definition inplace (r : ref) (f : DataFrame -> result DataFrame) (h : store)
  : result store :=
  d <- f (h r) ;; Ok (store_set h r d).

(** The body of [for _, row in diag_df.iterrows()], the frame [df] being
    the object behind [r]: three independent [if], each on a substring of
    the row's [Probleme]. *)
Definition correct_row (r : ref) (row : issue) (h : store) : result store :=
  let col := Colonne row in
  h <- (if contains "manquantes" (Probleme row)
        then inplace r (remedy_manquantes col) h else Ok h) ;;
  h <- (if contains "aberrantes" (Probleme row)
        then inplace r (remedy_aberrantes col) h else Ok h) ;;
  if contains "Doublons" (Probleme row)
  then inplace r (remedy_doublons col) h else Ok h.

Fixpoint corrections (r : ref) (diag : list issue) (h : store)
  : result store :=
  match diag with
  | [] => Ok h
  | row :: diag' => h' <- correct_row r row h ;; corrections r diag' h'
  end.

(** The same pass seen as a function of the frame's contents: what the
    object behind [df] holds after the loop. *)
Definition correct_row_frame (row : issue) (df : DataFrame)
  : result DataFrame :=
  let col := Colonne row in
  df <- (if contains "manquantes" (Probleme row)
         then remedy_manquantes col df else Ok df) ;;
  df <- (if contains "aberrantes" (Probleme row)
         then remedy_aberrantes col df else Ok df) ;;
  if contains "Doublons" (Probleme row)
  then remedy_doublons col df else Ok df.

Fixpoint correct (df : DataFrame) (diag : list issue) : result DataFrame :=
  match diag with
  | [] => Ok df
  | row :: diag' => df' <- correct_row_frame row df ;; correct df' diag'
  end.

(** ** What the diagnostic is meant to detect *)

Inductive kind := MissingValues | Outliers | Duplicates.

Definition label (k : kind) : string :=
  match k with
  | MissingValues => lbl_manquantes
  | Outliers => lbl_aberrantes
  | Duplicates => lbl_doublons
  end.

(** Two cells hold the same value. *)
Definition same_value (a b : cell) : Prop :=
  match a, b with
  | NaN, NaN => True
  | Num x, Num y => (x == y)%Q
  | Str s, Str t => s = t
  | _, _ => False
  end.

(** The cell at row [i] repeats the cell of an earlier row. *)
Definition repeats_earlier (cs : list cell) (i : nat) : Prop :=
  exists j a b,
    j < i /\ nth_error cs j = Some a /\ nth_error cs i = Some b /\
    same_value a b.

(** [x] lies more than three sample standard deviations away from the
    mean of the column, over the reals. *)
Definition beyond_3std (cs : list cell) (x : Q) : Prop :=
  exists m v,
    mean cs = Some m /\ variance cs = Some v /\
    (Rabs (Q2R x - Q2R m) > 3 * sqrt (Q2R v))%R.

Definition detects (k : kind) (s : Series) : Prop :=
  match k with
  | MissingValues => In NaN (values s)
  | Outliers =>
      is_numeric (dtype_of s) = true /\
      exists x, In (Num x) (values s) /\ beyond_3std (values s) x
  | Duplicates => exists i, repeats_earlier (values s) i
  end.

(** The (column, problem) pairs of a report, in report order. *)
Definition report_keys (diag : list issue) : list (string * string) :=
  map (fun i => (Colonne i, Probleme i)) diag.

(** Every check of every column, in the order the loop visits them. *)
Definition all_checks (df : DataFrame) : list (string * string) :=
  flat_map (fun cs : string * Series =>
              map (fun k => (fst cs, label k))
                  [MissingValues; Outliers; Duplicates])
           df.

(** [l1] is [l2] with some entries left out, the order kept. *)
Inductive subseq {A} : list A -> list A -> Prop :=
| subseq_nil : subseq [] []
| subseq_skip x l1 l2 : subseq l1 l2 -> subseq l1 (x :: l2)
| subseq_take x l1 l2 : subseq l1 l2 -> subseq (x :: l1) (x :: l2).


(** ** Structure of the report *)

(** What one pass of the loop body appends for the column [col]. *)
Definition col_issues (col : string) (s : Series) : list issue :=
  analyse_col [] col s.


(** The distinct values of a column: one representative per value. *)
Fixpoint distinct (cs : list cell) : list cell :=
  match cs with
  | [] => []
  | c :: cs' =>
      if existsb (cell_eqb c) cs' then distinct cs' else c :: distinct cs'
  end.

(** The cells of [cs] that equal none of [seen]. *)
Definition unseen (seen cs : list cell) : list cell :=
  filter (fun c => negb (existsb (cell_eqb c) seen)) cs.


(** ** The in-place loop and its functional reading *)

(** The statement [g] on the store does to the object behind [r] what [f]
    does to a frame, raises when [f] raises, and touches no other object. *)
Definition tracks (r : ref) (g : store -> result store)
  (f : DataFrame -> result DataFrame) : Prop :=
  forall h,
    match f (h r) with
    | Ok d =>
        exists h', g h = Ok h' /\ h' r = d /\
                   forall r', r' <> r -> h' r' = h r'
    | Raise e => g h = Raise e
    end.

(** ** Sample columns *)

Definition ints (l : list Z) : list cell := map (fun z => Num (inject_Z z)) l.

(** The two outlier examples. *)
Definition col_B5 : Series := mkSeries Int64 (ints [10; 12; 11; 13; 1000]%Z).
Definition col_B10 : Series :=
  mkSeries Int64 (ints [1; 2; 3; 4; 5; 6; 7; 8; 9; 1000]%Z).

(** A float column with one missing cell and no repeated value, beside a
    column of row numbers. *)
Definition col_A : Series := mkSeries Float64 [Num 1; NaN; Num 4; Num 2].
Definition col_K : Series := mkSeries Int64 (ints [1; 2; 3; 4]%Z).
Definition df_A : DataFrame := [("A", col_A); ("K", col_K)].

(** A one-row frame whose float column [A] holds nothing but a missing
    cell. *)
Definition col_empty : Series := mkSeries Float64 [NaN].
Definition df_empty : DataFrame :=
  [("A", col_empty); ("K", mkSeries Int64 (ints [1]%Z))].

(** The duplicate example, and a text column beside it. *)
Definition col_C : Series := mkSeries Int64 (ints [5; 5; 7; 5; 9]%Z).
Definition col_D : Series :=
  mkSeries Object [Str "a"; Str "b"; Str "c"; Str "d"; Str "e"].

(** A text column with a missing cell. *)
Definition col_T : Series := mkSeries Object [Str "x"; NaN; Str "y"].


(** A float column with a missing cell and an outlier, and the same column
    once the missing cell is filled. *)
Definition col_Y : Series :=
  mkSeries Float64
    (ints [1; 1; 1; 1; 1; 1; 1; 1; 1; 1; 1]%Z ++ [NaN; Num 1000]).
Definition col_Y_filled : Series :=
  mkSeries Float64
    (ints [1; 1; 1; 1; 1; 1; 1; 1; 1; 1; 1]%Z ++ [Num 1; Num 1000]).

(** A column holding a single number. *)
Definition col_one : Series := mkSeries Int64 (ints [7]%Z).


(** ** The rest of the script, as far as it reads the frame *)

(** [df.select_dtypes(include=np.number).columns]: the labels offered by
    the column chooser and fed to the correlation matrix. *)
Definition select_dtypes_number (df : DataFrame) : list string :=
  map fst (filter (fun cs : string * Series => is_numeric (dtype_of (snd cs)))
                  df).

(** [len(df.columns)] *)
Definition ncols (df : DataFrame) : nat := length (columns df).

(** The label of every column with the answer of the dtype test on it. *)
Definition signature (df : DataFrame) : list (string * bool) :=
  map (fun cs : string * Series => (fst cs, is_numeric (dtype_of (snd cs))))
      df.

(** The row [row] of a report can be applied to [df]: its column is there,
    and is numeric when the row asks for the outlier remedy. *)
Definition applicable (df : DataFrame) (row : issue) : Prop :=
  exists s,
    getitem df (Colonne row) = Ok s /\
    (contains "aberrantes" (Probleme row) = true ->
     is_numeric (dtype_of s) = true).

(** A frame without rows. *)
Definition df_norows : DataFrame :=
  [("A", mkSeries Float64 []); ("T", mkSeries Object [])].

(** A frame whose columns each show one defect. *)
Definition df_mixed : DataFrame :=
  [("Y", col_Y);
   ("G", mkSeries Object
           [Str "a"; Str "a"; Str "b"; Str "c"; Str "d"; Str "e"; Str "f";
            Str "g"; Str "h"; Str "i"; Str "j"; Str "k"; Str "l"])].


(** Every column has [n] rows. *)
Definition rows_all (n : nat) (df : DataFrame) : Prop :=
  Forall (fun cs : string * Series => length (values (snd cs)) = n) df.

(** From [d] to [d'] no row is gained, and not all rows are lost. *)
Definition shrinks (d d' : DataFrame) : Prop :=
  forall n, rows_all n d ->
    exists n', rows_all n' d' /\ n' <= n /\ (0 < n -> 0 < n').


(** The column [c] of [d] can be read and repeats no value. *)
Definition no_repeat_in (c : string) (d : DataFrame) : Prop :=
  exists s, getitem d c = Ok s /\ mask_any (duplicated (values s)) = false.


(** ** The statistics in binary64 *)

(** The cells of a [float64] column as the machine holds them: IEEE 754
    binary64 numbers, the two infinities and [nan], which is the missing
    cell.  The operations are those of [SpecFloat] at 53 bits, rounding to
    nearest even. *)
Definition f64 : Type := spec_float.

Definition f64_add : f64 -> f64 -> f64 := SFadd 53 1024.
Definition f64_sub : f64 -> f64 -> f64 := SFsub 53 1024.
Definition f64_mul : f64 -> f64 -> f64 := SFmul 53 1024.
Definition f64_div : f64 -> f64 -> f64 := SFdiv 53 1024.
Definition f64_sqrt : f64 -> f64 := SFsqrt 53 1024.
Definition f64_abs : f64 -> f64 := SFabs.
Definition f64_gt (x y : f64) : bool := SFltb y x.
Definition f64_zero : f64 := S754_zero false.
Definition f64_of_Z (z : Z) : f64 := binary_normalize 53 1024 z 0 false.

Definition f64_isnan (x : f64) : bool :=
  match x with S754_nan => true | _ => false end.

(** [np.add.reduce] on a contiguous [float64] array: fewer than 8 items
    are added from left to right; up to 128 items are added into eight
    running sums, which are then added in pairs, the items left over
    being added last; a longer array is cut in two near its middle, at a
    multiple of 8, and the sums of the halves are added. *)
Definition add8 (r xs : list f64) : list f64 :=
  map (fun p : f64 * f64 => f64_add (fst p) (snd p)) (combine r xs).

Fixpoint blocks8 (fuel : nat) (r xs : list f64) : list f64 * list f64 :=
  match fuel with
  | 0 => (r, xs)
  | S fuel' =>
      if 8 <=? length xs
      then blocks8 fuel' (add8 r (firstn 8 xs)) (skipn 8 xs)
      else (r, xs)
  end.

Definition tree8 (r : list f64) : f64 :=
  match r with
  | [r0; r1; r2; r3; r4; r5; r6; r7] =>
      f64_add (f64_add (f64_add r0 r1) (f64_add r2 r3))
              (f64_add (f64_add r4 r5) (f64_add r6 r7))
  | _ => f64_zero
  end.

Fixpoint pairwise_sum (fuel : nat) (a : list f64) : f64 :=
  let n := length a in
  if n <? 8 then fold_left f64_add a f64_zero
  else if n <=? 128 then
    let (r, rest) := blocks8 n (firstn 8 a) (skipn 8 a) in
    fold_left f64_add rest (tree8 r)
  else
    match fuel with
    | 0 => f64_zero
    | S fuel' =>
        let n2 := n / 2 - (n / 2) mod 8 in
        f64_add (pairwise_sum fuel' (firstn n2 a))
                (pairwise_sum fuel' (skipn n2 a))
    end.

Definition f64_sum (a : list f64) : f64 :=
  f64_add f64_zero (pairwise_sum (length a) a).

(** The number of cells that are not missing. *)
Definition f64_count (xs : list f64) : nat :=
  length (filter (fun x => negb (f64_isnan x)) xs).

(** Missing cells are set to 0 before the column is summed. *)
Definition f64_fill0 (x : f64) : f64 := if f64_isnan x then f64_zero else x.

(** [Series.mean()]: the sum over the count; [0/0] is [nan]. *)
Definition f64_mean (xs : list f64) : f64 :=
  f64_div (f64_sum (map f64_fill0 xs)) (f64_of_Z (Z.of_nat (f64_count xs))).

(** [Series.std()]: [nan] when the count is at most [ddof = 1]; else the
    square root of the summed squares of [avg - x], missing cells
    counting for 0, over [count - 1]. *)
Definition f64_std (xs : list f64) : f64 :=
  if f64_count xs <=? 1 then S754_nan
  else
    let avg := f64_mean xs in
    let sqr :=
      map (fun v => if f64_isnan v then f64_zero
                    else f64_mul (f64_sub avg v) (f64_sub avg v)) xs in
    f64_sqrt (f64_div (f64_sum sqr) (f64_of_Z (Z.of_nat (f64_count xs - 1)))).

(** [(s - s.mean()).abs() > 3 * s.std()] *)
Definition f64_outlier_mask (xs : list f64) : list bool :=
  let mean_ := f64_mean xs in
  let std_ := f64_std xs in
  map (fun v => f64_gt (f64_abs (f64_sub v mean_))
                       (f64_mul (f64_of_Z 3) std_))
      xs.

(** The outlier check of [analyse_data] on the [float64] column [col]:
    what it appends to [diag]. *)
Definition f64_diag_aberrantes (col : string) (xs : list f64) : list issue :=
  let outliers := mask_sum (f64_outlier_mask xs) in
  if 0 <? outliers
  then [mkIssue col lbl_aberrantes outliers "Remplacer par médiane"]
  else [].

Fixpoint f64_insert (x : f64) (l : list f64) : list f64 :=
  match l with
  | [] => [x]
  | y :: l' => if SFleb x y then x :: l else y :: f64_insert x l'
  end.

(** [Series.median()]: the mean of the middle item, or of the two middle
    items, of the sorted cells that are not missing. *)
Definition f64_median (xs : list f64) : f64 :=
  let s := fold_right f64_insert []
             (filter (fun x => negb (f64_isnan x)) xs) in
  let n := length s in
  match n with
  | 0 => S754_nan
  | _ =>
      if Nat.even n
      then f64_div (f64_sum [nth (n / 2 - 1) s f64_zero; nth (n / 2) s f64_zero])
                   (f64_of_Z 2)
      else f64_div (f64_sum [nth (n / 2) s f64_zero]) (f64_of_Z 1)
  end.

(** The outlier remedy of the loop on a [float64] column: the new cells
    of [df[col]]. *)
Definition f64_remedy_aberrantes (xs : list f64) : list f64 :=
  let mean_ := f64_mean xs in
  let std_ := f64_std xs in
  let med := f64_median xs in
  map (fun v => if f64_gt (f64_abs (f64_sub v mean_))
                          (f64_mul (f64_of_Z 3) std_)
                then med else v)
      xs.

(** The exact value of a binary64 cell, for the exact reading of the same
    column; the infinities have none. *)
Definition f64_cell (x : f64) : option cell :=
  match x with
  | S754_nan => Some NaN
  | S754_zero _ => Some (Num 0)
  | S754_infinity _ => None
  | S754_finite s m e =>
      Some (Num (match e with
                 | Z.neg p => Qmake (cond_Zopp s (Z.pos m)) (2 ^ p)
                 | _ => inject_Z (cond_Zopp s (Z.pos m) * 2 ^ e)
                 end))
  end.

(** Three cells holding [0x1.999999999999ap-504]. *)
Definition f64_tiny : f64 := S754_finite false 0x1999999999999a (-556).
Definition f64_col_tiny : list f64 := [f64_tiny; f64_tiny; f64_tiny].
Definition col_tiny : Series :=
  mkSeries Float64
    (let x := Num (Qmake 0x1999999999999a (2 ^ 556)) in [x; x; x]).

(** The cells [1e-170, 2e-170, 3e-170]. *)
Definition f64_col_small : list f64 :=
  [S754_finite false 0x13529ba7d19eaf (-617);
   S754_finite false 0x13529ba7d19eaf (-616);
   S754_finite false 0x1cfbe97bba6e07 (-616)].
Definition col_small : Series :=
  mkSeries Float64
    [Num (Qmake 0x13529ba7d19eaf (2 ^ 617));
     Num (Qmake 0x13529ba7d19eaf (2 ^ 616));
     Num (Qmake 0x1cfbe97bba6e07 (2 ^ 616))].

(** Ten zeros and [2^600]. *)
Definition f64_col_huge : list f64 :=
  repeat f64_zero 10 ++ [S754_finite false 0x10000000000000 548].
Definition col_huge : Series :=
  mkSeries Float64
    (repeat (Num 0) 10 ++ [Num (inject_Z (0x10000000000000 * 2 ^ 548))]).


(** A float column with two missing cells after the numbers 1, 2, 3,
    beside a column of row numbers. *)
Definition df_M : DataFrame :=
  [("M", mkSeries Float64 [Num 1; Num 2; Num 3; NaN; NaN]);
   ("K", mkSeries Int64 (ints [10; 20; 30; 40; 50]%Z))].

(** A text column with three missing cells, beside the same row numbers. *)
Definition col_T3 : Series :=
  mkSeries Object [Str "x"; NaN; Str "y"; NaN; NaN].
Definition df_T3 : DataFrame :=
  [("T", col_T3); ("K", mkSeries Int64 (ints [10; 20; 30; 40; 50]%Z))].


(** The missing-value remedy of the loop on a [float64] column: the new
    cells of [df[col]].  Filling with a [nan] median leaves the cells
    missing. *)
Definition f64_remedy_manquantes (xs : list f64) : list f64 :=
  let med := f64_median xs in
  map (fun v => if f64_isnan v then med else v) xs.

(** A missing cell, minus infinity and plus infinity. *)
Definition f64_col_infs : list f64 :=
  [S754_nan; S754_infinity true; S754_infinity false].


(** The columns [A] and [Y] (once filled) as [float64] cells. *)
Definition f64_col_A : list f64 :=
  [f64_of_Z 1; S754_nan; f64_of_Z 4; f64_of_Z 2].
Definition f64_col_Y_filled : list f64 :=
  repeat (f64_of_Z 1) 12 ++ [f64_of_Z 1000].

(** ** Basic facts *)

Lemma Qlt_bool_iff (x y : Q) : Qlt_bool x y = true <-> (x < y)%Q.
Proof.
  unfold Qlt_bool. rewrite negb_true_iff.
  split; intro H.
  - apply Qnot_le_lt. intro Hle. apply Qle_bool_iff in Hle. congruence.
  - destruct (Qle_bool y x) eqn:E; [|reflexivity].
    apply Qle_bool_iff in E. exfalso. exact (Qlt_not_le _ _ H E).
Qed.

Lemma cell_eqb_same (a b : cell) : cell_eqb a b = true <-> same_value a b.
Proof.
  destruct a, b; simpl; try (split; [discriminate | contradiction]).
  - tauto.
  - apply Qeq_bool_iff.
  - apply String.eqb_eq.
Qed.

Lemma same_value_refl (a : cell) : same_value a a.
Proof. destruct a; simpl; auto. reflexivity. Qed.

Lemma same_value_sym (a b : cell) : same_value a b -> same_value b a.
Proof.
  destruct a, b; simpl; auto. intro H. symmetry. exact H.
Qed.

Lemma same_value_trans (a b c : cell) :
  same_value a b -> same_value b c -> same_value a c.
Proof.
  destruct a, b, c; simpl; try tauto; try congruence.
  intros H1 H2. rewrite H1. exact H2.
Qed.

Lemma cell_eqb_refl (a : cell) : cell_eqb a a = true.
Proof. apply cell_eqb_same, same_value_refl. Qed.

Lemma cell_eqb_sym (a b : cell) : cell_eqb a b = cell_eqb b a.
Proof.
  destruct (cell_eqb a b) eqn:E1, (cell_eqb b a) eqn:E2; try reflexivity.
  - apply cell_eqb_same, same_value_sym, cell_eqb_same in E1. congruence.
  - apply cell_eqb_same, same_value_sym, cell_eqb_same in E2. congruence.
Qed.

Lemma cell_eqb_trans (a b c : cell) :
  cell_eqb a b = true -> cell_eqb b c = true -> cell_eqb a c = true.
Proof.
  rewrite !cell_eqb_same. apply same_value_trans.
Qed.

(** Equal cells are interchangeable on either side of [cell_eqb]. *)
Lemma cell_eqb_congr (a b c : cell) :
  cell_eqb a b = true -> cell_eqb a c = cell_eqb b c.
Proof.
  intro Hab.
  destruct (cell_eqb a c) eqn:E1, (cell_eqb b c) eqn:E2; try reflexivity.
  - rewrite cell_eqb_sym in Hab.
    rewrite (cell_eqb_trans _ _ _ Hab E1) in E2. discriminate.
  - rewrite (cell_eqb_trans _ _ _ Hab E2) in E1. discriminate.
Qed.

Lemma mask_sum_cons (b : bool) (m : list bool) :
  mask_sum (b :: m) = (if b then 1 else 0) + mask_sum m.
Proof. unfold mask_sum. destruct b; reflexivity. Qed.

Lemma mask_sum_pos (m : list bool) : 0 < mask_sum m <-> In true m.
Proof.
  induction m as [|b m IH].
  - simpl. split; [unfold mask_sum; simpl; lia | tauto].
  - rewrite mask_sum_cons. simpl. destruct b.
    + split; [auto | lia].
    + rewrite Nat.add_0_l, IH. split; [auto | intros [H|H]; [discriminate|exact H]].
Qed.

Lemma mask_any_In (m : list bool) : mask_any m = true <-> In true m.
Proof.
  unfold mask_any. rewrite existsb_exists. split.
  - intros [b [Hin Hb]]. subst b. exact Hin.
  - intro H. exists true. auto.
Qed.

Lemma mask_sum_le_length (m : list bool) : mask_sum m <= length m.
Proof. unfold mask_sum. apply filter_length_le. Qed.

Lemma isnull_In (cs : list cell) : In true (map isnull cs) <-> In NaN cs.
Proof.
  rewrite in_map_iff. split.
  - intros [c [Hc Hin]]. destruct c; try discriminate. exact Hin.
  - intro H. exists NaN. auto.
Qed.

(** ** Rational arithmetic of the statistics *)

Lemma Qsq_nonneg (a : Q) : (0 <= a * a)%Q.
Proof.
  unfold Qle, Qmult. simpl. nia.
Qed.

Lemma Qsum_squares_nonneg (f : Q -> Q) (xs : list Q) :
  (0 <= Qsum (map (fun x => f x * f x) xs))%Q.
Proof.
  induction xs as [|x xs IH]; simpl.
  - apply Qle_refl.
  - replace 0%Q with (0 + 0)%Q by reflexivity.
    apply Qplus_le_compat; [apply Qsq_nonneg | exact IH].
Qed.

Lemma Qofnat_pos (n : nat) : 0 < n -> (0 < Qofnat n)%Q.
Proof.
  intro H. unfold Qofnat, Qlt. simpl. lia.
Qed.

Lemma variance_nonneg (cs : list cell) (v : Q) :
  variance cs = Some v -> (0 <= v)%Q.
Proof.
  unfold variance. destruct (mean cs) as [avg|]; [|discriminate].
  destruct (length (present cs) <=? 1) eqn:E; [discriminate|].
  apply Nat.leb_gt in E. intro H. injection H as <-.
  apply Qle_shift_div_l.
  - apply Qofnat_pos. lia.
  - rewrite Qmult_0_l. apply Qsum_squares_nonneg.
Qed.

Lemma Q2R_nine : Q2R 9 = 9%R.
Proof. unfold Q2R. simpl. lra. Qed.

(** The test on squares is the test with the square root. *)
Lemma gt_3std_real (x m v : Q) :
  (0 <= v)%Q ->
  Qlt_bool (9 * v) ((x - m) * (x - m)) = true <->
  (Rabs (Q2R x - Q2R m) > 3 * sqrt (Q2R v))%R.
Proof.
  intro Hv. rewrite Qlt_bool_iff.
  assert (HV : (0 <= Q2R v)%R).
  { replace 0%R with (Q2R 0) by (unfold Q2R; simpl; lra).
    apply Qle_Rle. exact Hv. }
  pose proof (sqrt_pos (Q2R v)) as Hs0.
  pose proof (sqrt_sqrt _ HV) as Hss.
  pose proof (Rabs_pos (Q2R x - Q2R m)) as Ha0.
  assert (Haa : (Rabs (Q2R x - Q2R m) * Rabs (Q2R x - Q2R m)
                 = (Q2R x - Q2R m) * (Q2R x - Q2R m))%R).
  { unfold Rabs. destruct (Rcase_abs (Q2R x - Q2R m)); lra. }
  split; intro H.
  - apply Qlt_Rlt in H.
    rewrite !Q2R_mult, Q2R_minus, Q2R_nine in H. nra.
  - apply Rlt_Qlt. rewrite !Q2R_mult, Q2R_minus, Q2R_nine. nra.
Qed.

(** [gt_3std] on a cell of the column says that the cell is a number
    lying beyond three standard deviations. *)
Lemma gt_3std_beyond (cs : list cell) (c : cell) :
  gt_3std (mean cs) (variance cs) c = true <->
  exists x, c = Num x /\ beyond_3std cs x.
Proof.
  unfold gt_3std, beyond_3std. split.
  - destruct c as [|x|]; try discriminate.
    destruct (mean cs) as [m|] eqn:Em; [|discriminate].
    destruct (variance cs) as [v|] eqn:Ev; [|discriminate].
    intro H. exists x. split; [reflexivity|]. exists m, v.
    repeat split. apply gt_3std_real; [|exact H].
    eapply variance_nonneg; eassumption.
  - intros [x [-> [m [v [Em [Ev H]]]]]]. rewrite Em, Ev.
    apply gt_3std_real; [|exact H].
    eapply variance_nonneg; eassumption.
Qed.

Lemma outlier_mask_In (cs : list cell) :
  In true (outlier_mask cs) <->
  exists x, In (Num x) cs /\ beyond_3std cs x.
Proof.
  unfold outlier_mask. rewrite in_map_iff. split.
  - intros [c [Hc Hin]]. apply gt_3std_beyond in Hc.
    destruct Hc as [x [-> Hx]]. eauto.
  - intros [x [Hin Hx]]. exists (Num x). split; [|exact Hin].
    apply gt_3std_beyond. eauto.
Qed.

(** ** The report, column by column *)

Lemma analyse_col_app (diag : list issue) (col : string) (s : Series) :
  analyse_col diag col s = diag ++ col_issues col s.
Proof.
  unfold col_issues, analyse_col.
  destruct (0 <? isnull_sum s);
    destruct (is_numeric (dtype_of s));
    try destruct (0 <? mask_sum (outlier_mask (values s)));
    destruct (mask_any (duplicated (values s)));
    simpl; rewrite <- ?app_assoc; simpl; rewrite ?app_nil_r; reflexivity.
Qed.

Lemma analyse_data_from (df : DataFrame) (diag : list issue) :
  fold_left (fun d cs => analyse_col d (fst cs) (snd cs)) df diag
  = diag ++ flat_map (fun cs => col_issues (fst cs) (snd cs)) df.
Proof.
  revert diag. induction df as [|[c s] df IH]; intro diag; simpl.
  - now rewrite app_nil_r.
  - rewrite IH, analyse_col_app, <- app_assoc. reflexivity.
Qed.

Lemma analyse_data_flat_map (df : DataFrame) :
  analyse_data df = flat_map (fun cs => col_issues (fst cs) (snd cs)) df.
Proof. unfold analyse_data. now rewrite analyse_data_from. Qed.

Lemma analyse_data_cons (c : string) (s : Series) (df : DataFrame) :
  analyse_data ((c, s) :: df) = col_issues c s ++ analyse_data df.
Proof. now rewrite !analyse_data_flat_map. Qed.

(** The issues of one column, spelled out. *)
Lemma col_issues_eq (col : string) (s : Series) :
  col_issues col s =
    (if 0 <? isnull_sum s
     then [mkIssue col lbl_manquantes (isnull_sum s)
             "Remplacer par moyenne/médiane"] else [])
    ++ (if is_numeric (dtype_of s) && (0 <? mask_sum (outlier_mask (values s)))
        then [mkIssue col lbl_aberrantes (mask_sum (outlier_mask (values s)))
                "Remplacer par médiane"] else [])
    ++ (if mask_any (duplicated (values s))
        then [mkIssue col lbl_doublons (mask_sum (duplicated (values s)))
                "Supprimer doublons"] else []).
Proof.
  unfold col_issues, analyse_col.
  destruct (0 <? isnull_sum s);
    destruct (is_numeric (dtype_of s));
    try destruct (0 <? mask_sum (outlier_mask (values s)));
    destruct (mask_any (duplicated (values s))); reflexivity.
Qed.

Lemma col_issues_Colonne (col : string) (s : Series) (i : issue) :
  In i (col_issues col s) -> Colonne i = col.
Proof.
  rewrite col_issues_eq, !in_app_iff.
  intros [H|[H|H]];
    match type of H with In _ (if ?b then _ else _) => destruct b end;
    simpl in H; try contradiction; destruct H as [<-|[]]; reflexivity.
Qed.

Lemma col_issues_manquantes (col : string) (s : Series) (i : issue) :
  In i (col_issues col s) /\ Probleme i = lbl_manquantes <->
  i = mkIssue col lbl_manquantes (isnull_sum s)
        "Remplacer par moyenne/médiane" /\ 0 < isnull_sum s.
Proof.
  rewrite col_issues_eq, !in_app_iff. split.
  - intros [[H|[H|H]] Hp];
      match type of H with In _ (if ?b then _ else _) => destruct b eqn:E end;
      simpl in H; try contradiction; destruct H as [<-|[]];
      try discriminate Hp.
    split; [reflexivity | now apply Nat.ltb_lt].
  - intros [-> H]. apply Nat.ltb_lt in H. rewrite H. simpl. auto.
Qed.

Lemma col_issues_aberrantes (col : string) (s : Series) (i : issue) :
  In i (col_issues col s) /\ Probleme i = lbl_aberrantes <->
  i = mkIssue col lbl_aberrantes (mask_sum (outlier_mask (values s)))
        "Remplacer par médiane" /\
  is_numeric (dtype_of s) = true /\ 0 < mask_sum (outlier_mask (values s)).
Proof.
  rewrite col_issues_eq, !in_app_iff. split.
  - intros [[H|[H|H]] Hp];
      match type of H with In _ (if ?b then _ else _) => destruct b eqn:E end;
      simpl in H; try contradiction; destruct H as [<-|[]];
      try discriminate Hp.
    apply andb_true_iff in E. destruct E as [E1 E2].
    split; [reflexivity | split; [exact E1 | now apply Nat.ltb_lt]].
  - intros [-> [H1 H2]]. apply Nat.ltb_lt in H2. rewrite H1, H2. simpl.
    split; [|reflexivity]. right. left. simpl. auto.
Qed.

Lemma col_issues_doublons (col : string) (s : Series) (i : issue) :
  In i (col_issues col s) /\ Probleme i = lbl_doublons <->
  i = mkIssue col lbl_doublons (mask_sum (duplicated (values s)))
        "Supprimer doublons" /\
  mask_any (duplicated (values s)) = true.
Proof.
  rewrite col_issues_eq, !in_app_iff. split.
  - intros [[H|[H|H]] Hp];
      match type of H with In _ (if ?b then _ else _) => destruct b eqn:E end;
      simpl in H; try contradiction; destruct H as [<-|[]];
      try discriminate Hp.
    split; reflexivity.
  - intros [-> H]. rewrite H. simpl. auto.
Qed.

Lemma analyse_data_In (df : DataFrame) (i : issue) :
  In i (analyse_data df) <->
  exists s, In (Colonne i, s) df /\ In i (col_issues (Colonne i) s).
Proof.
  rewrite analyse_data_flat_map, in_flat_map. split.
  - intros [[c s] [Hin Hi]]. simpl in Hi.
    rewrite (col_issues_Colonne _ _ _ Hi). eauto.
  - intros [s [Hin Hi]]. exists (Colonne i, s). auto.
Qed.

(** ** [duplicated] *)

Lemma duplicated_from_length (seen cs : list cell) :
  length (duplicated_from seen cs) = length cs.
Proof.
  revert seen. induction cs as [|c cs IH]; intro seen; simpl.
  - reflexivity.
  - destruct (existsb (cell_eqb c) seen); simpl; now rewrite IH.
Qed.

Lemma existsb_cell_eqb (b : cell) (l : list cell) :
  existsb (cell_eqb b) l = true <-> exists a, In a l /\ same_value a b.
Proof.
  rewrite existsb_exists. split; intros [a [Hin H]]; exists a; split; auto.
  - apply same_value_sym, cell_eqb_same. exact H.
  - apply cell_eqb_same, same_value_sym. exact H.
Qed.

(** A mark at row [i]: the cell equals a cell already seen, or the cell of
    an earlier row. *)
Lemma duplicated_from_nth (seen cs : list cell) (i : nat) :
  nth_error (duplicated_from seen cs) i = Some true <->
  exists b, nth_error cs i = Some b /\
    (existsb (cell_eqb b) seen = true \/
     exists j a, j < i /\ nth_error cs j = Some a /\ same_value a b).
Proof.
  revert seen i. induction cs as [|c cs IH]; intros seen i.
  - simpl. destruct i; simpl; split; try discriminate;
      intros [b [H _]]; discriminate.
  - simpl. destruct (existsb (cell_eqb c) seen) eqn:E.
    + destruct i as [|i]; simpl.
      * split; [intros _; exists c; auto | reflexivity].
      * rewrite IH. split; intros [b [Hb H]]; exists b; (split; [exact Hb|]).
        -- destruct H as [H|[j [a [Hj [Ha Hab]]]]]; [left; exact H|].
           right. exists (S j), a. repeat split; [lia | exact Ha | exact Hab].
        -- destruct H as [H|[j [a [Hj [Ha Hab]]]]]; [left; exact H|].
           destruct j as [|j]; simpl in Ha.
           ++ injection Ha as <-. left.
              apply existsb_cell_eqb in E. destruct E as [a [Hin Hac]].
              apply existsb_cell_eqb. exists a. split; [exact Hin|].
              eapply same_value_trans; eassumption.
           ++ right. exists j, a. repeat split; [lia | exact Ha | exact Hab].
    + destruct i as [|i]; simpl.
      * split; [discriminate|]. intros [b [Hb H]]. injection Hb as <-.
        destruct H as [H|[j [a [Hj _]]]]; [congruence | lia].
      * rewrite IH. split; intros [b [Hb H]]; exists b; (split; [exact Hb|]).
        -- destruct H as [H|[j [a [Hj [Ha Hab]]]]].
           ++ simpl in H. apply orb_true_iff in H. destruct H as [H|H].
              ** right. exists 0, c. repeat split; [lia|].
                 apply same_value_sym, cell_eqb_same. exact H.
              ** left. exact H.
           ++ right. exists (S j), a. repeat split; [lia | exact Ha | exact Hab].
        -- destruct H as [H|[j [a [Hj [Ha Hab]]]]].
           ++ left. simpl. rewrite H. apply orb_true_r.
           ++ destruct j as [|j]; simpl in Ha.
              ** injection Ha as <-. left. simpl.
                 apply same_value_sym, cell_eqb_same in Hab. now rewrite Hab.
              ** right. exists j, a. repeat split; [lia | exact Ha | exact Hab].
Qed.

(** [duplicated] marks exactly the rows that repeat an earlier row. *)
Lemma duplicated_nth (cs : list cell) (i : nat) :
  nth_error (duplicated cs) i = Some true <-> repeats_earlier cs i.
Proof.
  unfold duplicated, repeats_earlier. rewrite duplicated_from_nth. split.
  - intros [b [Hb [H|[j [a [Hj [Ha Hab]]]]]]]; [discriminate|].
    exists j, a, b. auto.
  - intros [j [a [b [Hj [Ha [Hb Hab]]]]]]. exists b. split; [exact Hb|].
    right. exists j, a. auto.
Qed.

Lemma duplicated_In (cs : list cell) :
  In true (duplicated cs) <-> exists i, repeats_earlier cs i.
Proof.
  split.
  - intro H. apply In_nth_error in H. destruct H as [i H].
    exists i. now apply duplicated_nth.
  - intros [i H]. apply duplicated_nth in H.
    eapply nth_error_In. exact H.
Qed.

(** ** Order of the report *)

Lemma subseq_refl {A} (l : list A) : subseq l l.
Proof. induction l; constructor; assumption. Qed.

Lemma subseq_app {A} (l1 l2 l3 l4 : list A) :
  subseq l1 l2 -> subseq l3 l4 -> subseq (l1 ++ l3) (l2 ++ l4).
Proof.
  intros H12 H34. induction H12; simpl.
  - exact H34.
  - now constructor.
  - now constructor.
Qed.

Lemma col_issues_order (col : string) (s : Series) :
  subseq (report_keys (col_issues col s))
         (map (fun k => (col, label k)) [MissingValues; Outliers; Duplicates]).
Proof.
  rewrite col_issues_eq. unfold report_keys. rewrite !map_app.
  change (map (fun k => (col, label k)) [MissingValues; Outliers; Duplicates])
    with ([(col, lbl_manquantes)] ++ [(col, lbl_aberrantes)]
          ++ [(col, lbl_doublons)]).
  apply subseq_app; [|apply subseq_app];
    match goal with |- context [if ?b then _ else _] => destruct b end;
    simpl; first [apply subseq_refl | apply subseq_skip, subseq_nil].
Qed.

Lemma analyse_data_order (df : DataFrame) :
  subseq (report_keys (analyse_data df)) (all_checks df).
Proof.
  induction df as [|[c s] df IH].
  - constructor.
  - rewrite analyse_data_cons. unfold report_keys, all_checks.
    rewrite map_app. cbn [flat_map].
    apply subseq_app; [apply col_issues_order | exact IH].
Qed.

Lemma report_keys_In (diag : list issue) (c p : string) :
  In (c, p) (report_keys diag) <->
  exists i, In i diag /\ Colonne i = c /\ Probleme i = p.
Proof.
  unfold report_keys. rewrite in_map_iff. split.
  - intros [i [H Hin]]. injection H as <- <-. eauto.
  - intros [i [Hin [<- <-]]]. eauto.
Qed.

(** The check of kind [k] fires on the series [s] exactly when [s] shows
    the defect. *)
Lemma col_issues_detects (col : string) (s : Series) (k : kind) :
  (exists i, In i (col_issues col s) /\ Probleme i = label k) <->
  detects k s.
Proof.
  destruct k; simpl.
  - rewrite <- isnull_In. fold (isnull_sum s).
    rewrite <- mask_sum_pos. fold (isnull_sum s). split.
    + intros [i H]. apply col_issues_manquantes in H. tauto.
    + intro H. eexists. apply col_issues_manquantes. split; [reflexivity|exact H].
  - rewrite <- outlier_mask_In, <- mask_sum_pos. split.
    + intros [i H]. apply col_issues_aberrantes in H. tauto.
    + intro H. eexists. apply col_issues_aberrantes. split; [reflexivity|exact H].
  - rewrite <- duplicated_In, <- mask_any_In. split.
    + intros [i H]. apply col_issues_doublons in H. tauto.
    + intro H. eexists. apply col_issues_doublons. split; [reflexivity|exact H].
Qed.

(** ** The loop writes the frame behind [df] *)

Lemma tracks_ret (r : ref) : tracks r (fun h => Ok h) (fun d => Ok d).
Proof. intro h. exists h. auto. Qed.

Lemma tracks_inplace (r : ref) (f : DataFrame -> result DataFrame) :
  tracks r (inplace r f) f.
Proof.
  intro h. unfold inplace. destruct (f (h r)) as [d|e]; simpl; [|reflexivity].
  exists (store_set h r d). split; [reflexivity|].
  unfold store_set. split.
  - now rewrite Nat.eqb_refl.
  - intros r' Hr. apply Nat.eqb_neq in Hr. now rewrite Hr.
Qed.

Lemma tracks_bind (r : ref) (g1 g2 : store -> result store)
  (f1 f2 : DataFrame -> result DataFrame) :
  tracks r g1 f1 -> tracks r g2 f2 ->
  tracks r (fun h => h1 <- g1 h ;; g2 h1) (fun d => d1 <- f1 d ;; f2 d1).
Proof.
  intros T1 T2 h. specialize (T1 h).
  destruct (f1 (h r)) as [d1|e]; simpl.
  - destruct T1 as [h1 [E1 [Hr1 Ho1]]]. rewrite E1. simpl.
    specialize (T2 h1). rewrite Hr1 in T2.
    destruct (f2 d1) as [d2|e]; [|exact T2].
    destruct T2 as [h2 [E2 [Hr2 Ho2]]]. exists h2.
    repeat split; [exact E2 | exact Hr2 |].
    intros r' Hr. rewrite Ho2, Ho1; auto.
  - rewrite T1. reflexivity.
Qed.

Lemma tracks_if (r : ref) (b : bool) (g1 g2 : store -> result store)
  (f1 f2 : DataFrame -> result DataFrame) :
  tracks r g1 f1 -> tracks r g2 f2 ->
  tracks r (fun h => if b then g1 h else g2 h)
           (fun d => if b then f1 d else f2 d).
Proof. destruct b; auto. Qed.

Lemma correct_row_tracks (r : ref) (row : issue) :
  tracks r (correct_row r row) (correct_row_frame row).
Proof.
  unfold correct_row, correct_row_frame.
  repeat first
    [ apply tracks_bind
    | apply tracks_if
    | apply tracks_inplace
    | apply tracks_ret
    | intro ].
Qed.

Lemma corrections_tracks (r : ref) (diag : list issue) :
  tracks r (corrections r diag) (fun d => correct d diag).
Proof.
  induction diag as [|row diag IH]; simpl.
  - apply tracks_ret.
  - exact (tracks_bind r _ _ _ _ (correct_row_tracks r row) IH).
Qed.

(** C2 (counterexample).  On the frame with the columns
    [A = [1, nan, 4, 2]] and [K = [1, 2, 3, 4]] the loop leaves another
    frame behind [df] than the one it was given: the missing cell has been
    filled where it lay. *)
Lemma correction_mutates_df :
  exists h',
    corrections 0 (analyse_data df_A) (fun _ => df_A) = Ok h' /\
    h' 0 <> df_A.
Proof.
  eexists. split.
  - vm_compute. reflexivity.
  - vm_compute. discriminate.
Qed.

(** C2 (amended).  The correction loop stores the corrections in the
    caller's frame itself: after the loop the object behind [df] holds the
    corrected frame [correct df diag], every other object of the store is
    as it was, and the loop raises exactly when a remedy raises.  With an
    empty report the store is returned as it is. *)
Theorem corrections_in_place (r : ref) (diag : list issue) (h : store) :
  match correct (h r) diag with
  | Ok d =>
      exists h', corrections r diag h = Ok h' /\ h' r = d /\
                 forall r', r' <> r -> h' r' = h r'
  | Raise e => corrections r diag h = Raise e
  end /\
  corrections r [] h = Ok h.
Proof.
  split; [exact (corrections_tracks r diag h) | reflexivity].
Qed.

(** ** The outlier examples of the specification *)

(** C3 (counterexample).  For [B = [10, 12, 11, 13, 1000]] the report
    holds no outlier issue of count 1 for [B]. *)
Lemma B5_no_outlier_issue :
  ~ exists i, In i (analyse_data [("B", col_B5)]) /\
              Colonne i = "B" /\ Probleme i = lbl_aberrantes /\
              NbOccurrences i = 1.
Proof.
  intros [i [Hin _]]. vm_compute in Hin. exact Hin.
Qed.

(** C3 (amended).  For [B = [10, 12, 11, 13, 1000]] and for
    [B = [1, ..., 9, 1000]] no value lies beyond three sample standard
    deviations of the mean, 1000 included: the outlier count is 0 and the
    report of the one-column frame is empty. *)
Theorem spec_examples_have_no_outlier :
  (mask_sum (outlier_mask (values col_B5)) = 0 /\
   ~ beyond_3std (values col_B5) 1000 /\
   analyse_data [("B", col_B5)] = []) /\
  (mask_sum (outlier_mask (values col_B10)) = 0 /\
   ~ beyond_3std (values col_B10) 1000 /\
   analyse_data [("B", col_B10)] = []).
Proof.
  split; (split; [vm_compute; reflexivity | split; [|vm_compute; reflexivity]]).
  - intro H.
    assert (E : gt_3std (mean (values col_B5)) (variance (values col_B5))
                  (Num 1000) = true)
      by (apply gt_3std_beyond; eauto).
    vm_compute in E. discriminate.
  - intro H.
    assert (E : gt_3std (mean (values col_B10)) (variance (values col_B10))
                  (Num 1000) = true)
      by (apply gt_3std_beyond; eauto).
    vm_compute in E. discriminate.
Qed.

(** ** Counting duplicates *)

Lemma existsb_filter_other (c d : cell) (l : list cell) :
  cell_eqb c d = false ->
  existsb (cell_eqb d) (filter (fun x => negb (cell_eqb c x)) l)
  = existsb (cell_eqb d) l.
Proof.
  intro Hcd. induction l as [|x l IH]; simpl; [reflexivity|].
  destruct (cell_eqb c x) eqn:Ecx; simpl.
  - rewrite IH. destruct (cell_eqb d x) eqn:Edx; [|reflexivity].
    rewrite cell_eqb_sym in Edx.
    pose proof (cell_eqb_trans _ _ _ Ecx Edx). congruence.
  - now rewrite IH.
Qed.

Lemma filter_none_equal (c : cell) (l : list cell) :
  existsb (cell_eqb c) l = false ->
  filter (fun x => negb (cell_eqb c x)) l = l.
Proof.
  induction l as [|x l IH]; simpl; [reflexivity|].
  intro H. apply orb_false_iff in H. destruct H as [H1 H2].
  rewrite H1. simpl. now rewrite IH.
Qed.

Lemma distinct_remove_length (c : cell) (l : list cell) :
  existsb (cell_eqb c) l = true ->
  length (distinct l)
  = S (length (distinct (filter (fun x => negb (cell_eqb c x)) l))).
Proof.
  induction l as [|d l IH]; simpl; [discriminate|].
  intro H. destruct (cell_eqb c d) eqn:Ecd; simpl.
  - assert (Hex : existsb (cell_eqb d) l = existsb (cell_eqb c) l).
    { clear -Ecd. induction l as [|x l IH]; simpl; [reflexivity|].
      rewrite IH. f_equal. symmetry. now apply cell_eqb_congr. }
    rewrite Hex. destruct (existsb (cell_eqb c) l) eqn:El.
    + now apply IH.
    + rewrite (filter_none_equal _ _ El). reflexivity.
  - simpl in H. rewrite (existsb_filter_other _ _ _ Ecd).
    destruct (existsb (cell_eqb d) l); simpl; now rewrite IH.
Qed.

Lemma distinct_cons_length (c : cell) (l : list cell) :
  length (distinct (c :: l))
  = S (length (distinct (filter (fun x => negb (cell_eqb c x)) l))).
Proof.
  simpl. destruct (existsb (cell_eqb c) l) eqn:E.
  - now apply distinct_remove_length.
  - now rewrite (filter_none_equal _ _ E).
Qed.

Lemma unseen_cons_seen (c : cell) (seen l : list cell) :
  filter (fun x => negb (cell_eqb c x)) (unseen seen l) = unseen (c :: seen) l.
Proof.
  unfold unseen. induction l as [|x l IH]; simpl; [reflexivity|].
  rewrite (cell_eqb_sym x c).
  destruct (existsb (cell_eqb x) seen); simpl.
  - rewrite orb_true_r. simpl. exact IH.
  - rewrite orb_false_r. destruct (cell_eqb c x); simpl; now rewrite IH.
Qed.

Lemma unseen_nil (l : list cell) : unseen [] l = l.
Proof.
  unfold unseen. induction l as [|x l IH]; simpl in *; [reflexivity|].
  now f_equal.
Qed.

(** Marked cells and distinct new values make up the column. *)
Lemma duplicated_from_count (seen cs : list cell) :
  mask_sum (duplicated_from seen cs) + length (distinct (unseen seen cs))
  = length cs.
Proof.
  revert seen. induction cs as [|c cs IH]; intro seen.
  - reflexivity.
  - cbn [duplicated_from]. destruct (existsb (cell_eqb c) seen) eqn:E.
    + rewrite mask_sum_cons. unfold unseen. cbn [filter]. rewrite E.
      cbn [negb]. fold (unseen seen cs). specialize (IH seen).
      cbn [length]. lia.
    + rewrite mask_sum_cons. unfold unseen. cbn [filter]. rewrite E.
      cbn [negb]. fold (unseen seen cs).
      rewrite distinct_cons_length, unseen_cons_seen.
      specialize (IH (c :: seen)). cbn [length]. lia.
Qed.

Lemma duplicated_count (cs : list cell) :
  mask_sum (duplicated cs) = length cs - length (distinct cs).
Proof.
  pose proof (duplicated_from_count [] cs) as H.
  rewrite unseen_nil in H. unfold duplicated. lia.
Qed.

(** [distinct] keeps one cell of every value, and no value twice. *)
Lemma distinct_complete (cs : list cell) (c : cell) :
  In c cs -> exists d, In d (distinct cs) /\ same_value c d.
Proof.
  revert c. induction cs as [|x cs IH]; intro c; simpl; [contradiction|].
  intros [->|Hin].
  - destruct (existsb (cell_eqb c) cs) eqn:E.
    + apply existsb_exists in E. destruct E as [y [Hy Hcy]].
      destruct (IH _ Hy) as [d [Hd Hyd]]. exists d. split; [exact Hd|].
      apply cell_eqb_same in Hcy. eapply same_value_trans; eassumption.
    + exists c. split; [now left | apply same_value_refl].
  - destruct (IH _ Hin) as [d [Hd Hcd]].
    destruct (existsb (cell_eqb x) cs); [|simpl]; eauto.
Qed.

Lemma distinct_incl (cs : list cell) (c : cell) :
  In c (distinct cs) -> In c cs.
Proof.
  induction cs as [|x cs IH]; simpl; [auto|].
  destruct (existsb (cell_eqb x) cs); simpl; intuition.
Qed.

Lemma distinct_no_repeat (cs : list cell) :
  mask_any (duplicated (distinct cs)) = false.
Proof.
  destruct (mask_any (duplicated (distinct cs))) eqn:E; [|reflexivity].
  exfalso. apply mask_any_In, duplicated_In in E.
  destruct E as [i [j [a [b [Hj [Ha [Hb Hab]]]]]]].
  revert i j Hj Ha Hb. induction cs as [|x cs IH]; intros i j Hj Ha Hb.
  - destruct j; discriminate.
  - simpl in Ha, Hb. destruct (existsb (cell_eqb x) cs) eqn:E; [eauto|].
    destruct i as [|i]; [lia|]. simpl in Hb. destruct j as [|j]; simpl in Ha.
    + injection Ha as ->.
      apply nth_error_In, distinct_incl in Hb.
      assert (existsb (cell_eqb a) cs = true); [|congruence].
      apply existsb_exists. exists b. split; [exact Hb|].
      now apply cell_eqb_same.
    + apply (IH i j); [lia | exact Ha | exact Hb].
Qed.

(** C6.  A duplicates issue of the report carries, for a column of its
    label, the number of cells minus the number of distinct values, which
    is the number of rows whose cell repeats the cell of an earlier row;
    for [C = [5, 5, 7, 5, 9]] the reported count is 2. *)
Theorem doublons_count_total_minus_distinct (df : DataFrame) (i : issue) :
  In i (analyse_data df) ->
  Probleme i = lbl_doublons ->
  (exists s,
      In (Colonne i, s) df /\
      NbOccurrences i = length (values s) - length (distinct (values s)) /\
      exists marks,
        length marks = length (values s) /\
        (forall k, nth_error marks k = Some true <->
                   repeats_earlier (values s) k) /\
        NbOccurrences i = mask_sum marks) /\
  analyse_data [("C", col_C)]
  = [mkIssue "C" lbl_doublons 2 "Supprimer doublons"].
Proof.
  intros Hin Hp. split; [|vm_compute; reflexivity].
  apply analyse_data_In in Hin. destruct Hin as [s [Hs Hi]].
  destruct (proj1 (col_issues_doublons _ _ _) (conj Hi Hp)) as [-> _].
  exists s. simpl in *. split; [exact Hs|]. split.
  - apply duplicated_count.
  - exists (duplicated (values s)). split; [apply duplicated_from_length|].
    split; [apply duplicated_nth | reflexivity].
Qed.

Lemma doublons_count_witness :
  let df := [("C", col_C)] in
  let i := mkIssue "C" lbl_doublons 2 "Supprimer doublons" in
  In i (analyse_data df) /\
  Probleme i = lbl_doublons /\
  (exists s,
      In (Colonne i, s) df /\
      NbOccurrences i = length (values s) - length (distinct (values s)) /\
      exists marks,
        length marks = length (values s) /\
        (forall k, nth_error marks k = Some true <->
                   repeats_earlier (values s) k) /\
        NbOccurrences i = mask_sum marks).
Proof.
  intros df i.
  assert (H1 : In i (analyse_data df)) by (vm_compute; left; reflexivity).
  assert (H2 : Probleme i = lbl_doublons) by reflexivity.
  split; [exact H1 | split; [exact H2|]].
  exact (proj1 (doublons_count_total_minus_distinct df i H1 H2)).
Defined.

(** ** Frame lookups and the row dispatch *)

Lemma getitem_setitem (df : DataFrame) (col : string) (s s' : Series) :
  getitem df col = Ok s -> getitem (setitem df col s') col = Ok s'.
Proof.
  induction df as [|[c s0] df IH]; simpl; [discriminate|].
  destruct (String.eqb c col) eqn:E; simpl; rewrite E; auto.
Qed.

Lemma getitem_In (df : DataFrame) (col : string) (s : Series) :
  getitem df col = Ok s -> In (col, s) df.
Proof.
  induction df as [|[c s0] df IH]; simpl; [discriminate|].
  destruct (String.eqb c col) eqn:E.
  - apply String.eqb_eq in E. intro H. injection H as <-. subst. now left.
  - intro H. right. auto.
Qed.

Lemma In_getitem (df : DataFrame) (col : string) (s : Series) :
  NoDup (columns df) -> In (col, s) df -> getitem df col = Ok s.
Proof.
  induction df as [|[c s0] df IH]; simpl; [contradiction|].
  intros Hnd Hin. inversion Hnd as [|? ? Hnotin Hnd']; subst.
  destruct Hin as [H|H].
  - injection H as -> ->. now rewrite String.eqb_refl.
  - destruct (String.eqb c col) eqn:E; [|auto].
    apply String.eqb_eq in E. subst c. exfalso. apply Hnotin.
    unfold columns. apply in_map_iff. exists (col, s). auto.
Qed.

Lemma correct_app (df : DataFrame) (pre post : list issue) :
  correct df (pre ++ post) = (df1 <- correct df pre ;; correct df1 post).
Proof.
  revert df. induction pre as [|row pre IH]; intro df; simpl; [reflexivity|].
  destruct (correct_row_frame row df) as [d|e]; simpl; auto.
Qed.

(** On the three labels that [analyse_data] writes, exactly one branch of
    the loop body is taken. *)
Lemma correct_row_manquantes (row : issue) (df : DataFrame) :
  Probleme row = lbl_manquantes ->
  correct_row_frame row df = remedy_manquantes (Colonne row) df.
Proof.
  intro H. unfold correct_row_frame. rewrite H.
  change (contains "manquantes" lbl_manquantes) with true.
  change (contains "aberrantes" lbl_manquantes) with false.
  change (contains "Doublons" lbl_manquantes) with false.
  cbv iota. destruct (remedy_manquantes (Colonne row) df); reflexivity.
Qed.

Lemma correct_row_aberrantes (row : issue) (df : DataFrame) :
  Probleme row = lbl_aberrantes ->
  correct_row_frame row df = remedy_aberrantes (Colonne row) df.
Proof.
  intro H. unfold correct_row_frame. rewrite H.
  change (contains "manquantes" lbl_aberrantes) with false.
  change (contains "aberrantes" lbl_aberrantes) with true.
  change (contains "Doublons" lbl_aberrantes) with false.
  cbv iota. simpl. destruct (remedy_aberrantes (Colonne row) df); reflexivity.
Qed.

Lemma correct_row_doublons (row : issue) (df : DataFrame) :
  Probleme row = lbl_doublons ->
  correct_row_frame row df = remedy_doublons (Colonne row) df.
Proof.
  intro H. unfold correct_row_frame. rewrite H.
  change (contains "manquantes" lbl_doublons) with false.
  change (contains "aberrantes" lbl_doublons) with false.
  change (contains "Doublons" lbl_doublons) with true.
  reflexivity.
Qed.

Lemma correct_single (row : issue) (df : DataFrame) :
  correct df [row] = correct_row_frame row df.
Proof.
  simpl. destruct (correct_row_frame row df); reflexivity.
Qed.

(** ** Medians and replacement *)

Lemma Qinsert_length (x : Q) (l : list Q) :
  length (Qinsert x l) = S (length l).
Proof.
  induction l as [|y l IH]; simpl; [reflexivity|].
  destruct (Qle_bool x y); simpl; auto.
Qed.

Lemma Qsort_length (l : list Q) : length (Qsort l) = length l.
Proof.
  induction l as [|x l IH]; simpl; [reflexivity|].
  now rewrite Qinsert_length, IH.
Qed.

(** The median is read off a sorted arrangement of the present numbers. *)
Lemma Qinsert_perm (x : Q) (l : list Q) : Permutation (Qinsert x l) (x :: l).
Proof.
  induction l as [|y l IH]; simpl; [apply Permutation_refl|].
  destruct (Qle_bool x y); [apply Permutation_refl|].
  eapply perm_trans; [apply perm_skip, IH | apply perm_swap].
Qed.

Lemma Qsort_perm (l : list Q) : Permutation (Qsort l) l.
Proof.
  induction l as [|x l IH]; simpl; [constructor|].
  eapply perm_trans; [apply Qinsert_perm | now apply perm_skip].
Qed.

Lemma Qinsert_sorted (x : Q) (l : list Q) :
  Sorted Qle l -> Sorted Qle (Qinsert x l).
Proof.
  induction l as [|y l IH]; simpl; intro Hs.
  - repeat constructor.
  - destruct (Qle_bool x y) eqn:E.
    + apply Qle_bool_iff in E. constructor; [exact Hs | now constructor].
    + assert (Hyx : (y <= x)%Q).
      { apply Qlt_le_weak, Qlt_bool_iff. unfold Qlt_bool. now rewrite E. }
      inversion Hs as [|? ? Hs' Hhd]; subst.
      constructor; [now apply IH|].
      destruct l as [|z l]; simpl.
      * now constructor.
      * destruct (Qle_bool x z); constructor; [exact Hyx|].
        now inversion Hhd.
Qed.

Lemma Qsort_sorted (l : list Q) : Sorted Qle (Qsort l).
Proof.
  induction l as [|x l IH]; simpl; [constructor|].
  now apply Qinsert_sorted.
Qed.

Lemma median_defined (cs : list cell) :
  present cs <> [] -> exists m, median cs = Some m.
Proof.
  intro H. unfold median. rewrite Qsort_length.
  destruct (present cs) as [|x xs]; [contradiction|].
  cbn [length]. destruct (Nat.even (S (length xs))); eauto.
Qed.

Lemma mean_present (cs : list cell) (m : Q) :
  mean cs = Some m -> present cs <> [].
Proof.
  unfold mean. destruct (present cs); [discriminate|]. discriminate.
Qed.

Lemma np_where_map (f : cell -> bool) (v : option Q) (cs : list cell) :
  np_where (map f cs) v cs
  = map (fun c => if f c
                  then match v with Some q => Num q | None => NaN end
                  else c) cs.
Proof.
  unfold np_where. induction cs as [|c cs IH]; simpl; [reflexivity|].
  now rewrite IH.
Qed.

(** ** The missing-value remedy *)

Lemma fillna_no_missing (q : Q) (cs : list cell) :
  mask_sum (map isnull (fillna (Some q) cs)) = 0.
Proof.
  simpl. induction cs as [|c cs IH]; [reflexivity|].
  cbn [map]. rewrite mask_sum_cons, IH. destruct c; reflexivity.
Qed.

(** C5 (counterexample).  In the one-row frame [df_empty] the float column
    [A] holds a missing cell and nothing else.  The report is a single
    missing-value issue for [A], and the correction leaves the cell
    missing: the median of no value is [nan]. *)
Lemma all_missing_column_stays_missing :
  analyse_data df_empty
  = [mkIssue "A" lbl_manquantes 1 "Remplacer par moyenne/médiane"] /\
  getitem df_empty "A" = Ok col_empty /\
  is_numeric (dtype_of col_empty) = true /\
  correct df_empty (analyse_data df_empty) = Ok df_empty /\
  isnull_sum col_empty = 1.
Proof. vm_compute. repeat split. Qed.



(** ** Columns without spread *)

Lemma Qsum_squares_zero (f : Q -> Q) (xs : list Q) :
  (Qsum (map (fun x => f x * f x) xs) == 0)%Q ->
  forall x, In x xs -> (f x * f x == 0)%Q.
Proof.
  induction xs as [|y xs IH]; [contradiction|].
  intros H x Hin.
  change (f y * f y + Qsum (map (fun x => f x * f x) xs) == 0)%Q in H.
  pose proof (Qsq_nonneg (f y)) as Hy.
  pose proof (Qsum_squares_nonneg f xs) as Hxs.
  set (a := (f y * f y)%Q) in *.
  set (b := Qsum (map (fun x => (f x * f x)%Q) xs)) in *.
  destruct Hin as [->|Hin].
  - fold a. clearbody a b. lra.
  - apply IH; [fold b; clearbody a b; lra | exact Hin].
Qed.

Lemma present_In (cs : list cell) (x : Q) : In (Num x) cs -> In x (present cs).
Proof.
  induction cs as [|c cs IH]; simpl; [auto|].
  intros [->|H]; [now left|].
  destruct c; simpl; auto.
Qed.

(** With a zero variance every number of the column is the mean. *)
Lemma variance_zero_deviation (cs : list cell) (m v x : Q) :
  mean cs = Some m -> variance cs = Some v -> (v == 0)%Q ->
  In (Num x) cs -> ((x - m) * (x - m) == 0)%Q.
Proof.
  intros Hm Hv Hz Hin. unfold variance in Hv. rewrite Hm in Hv.
  destruct (length (present cs) <=? 1) eqn:E; [discriminate|].
  apply Nat.leb_gt in E. injection Hv as Hv.
  assert (Hk : (0 < Qofnat (length (present cs) - 1))%Q)
    by (apply Qofnat_pos; lia).
  set (sq := Qsum (map (fun x => ((m - x) * (m - x))%Q) (present cs))) in *.
  assert (HS : (sq == 0)%Q).
  { assert (E1 : (sq == v * Qofnat (length (present cs) - 1))%Q).
    { rewrite <- Hv. field. intro H0. rewrite H0 in Hk.
      exact (Qlt_irrefl _ Hk). }
    rewrite E1, Hz. ring. }
  pose proof (Qsum_squares_zero (fun x => (m - x)%Q) _ HS x
                (present_In _ _ Hin))
    as H.
  simpl in H. rewrite <- H. ring.
Qed.

Lemma gt_3std_no_spread (cs : list cell) (c : cell) :
  length (present cs) < 2 \/
  (exists v, variance cs = Some v /\ (v == 0)%Q) ->
  In c cs ->
  gt_3std (mean cs) (variance cs) c = false.
Proof.
  intros Hcase Hin. unfold gt_3std.
  destruct c as [|x|]; try reflexivity.
  destruct (mean cs) as [m|] eqn:Hm; [|reflexivity].
  destruct (variance cs) as [v|] eqn:Hv; [|reflexivity].
  destruct Hcase as [Hlt|[v' [Hv' Hz]]].
  - exfalso. unfold variance in Hv. rewrite Hm in Hv.
    destruct (length (present cs) <=? 1) eqn:E; [discriminate|].
    apply Nat.leb_gt in E. lia.
  - injection Hv' as <-.
    pose proof (variance_zero_deviation cs m v x Hm Hv Hz Hin) as Hd.
    destruct (Qlt_bool (9 * v) ((x - m) * (x - m))) eqn:E; [|reflexivity].
    apply Qlt_bool_iff in E. rewrite Hd, Hz in E.
    exfalso. revert E. apply Qlt_irrefl.
Qed.

Lemma mask_sum_all_false (m : list bool) :
  (forall b, In b m -> b = false) -> mask_sum m = 0.
Proof.
  induction m as [|b m IH]; intro H; [reflexivity|].
  rewrite mask_sum_cons, IH by (intros; apply H; now right).
  rewrite (H b) by now left. reflexivity.
Qed.

(** ** Dropping duplicated rows *)

Lemma keep_rows_length {A} (mask : list bool) (l : list A) :
  length mask = length l -> length (keep_rows mask l) = mask_sum mask.
Proof.
  revert l. induction mask as [|b mask IH]; intros [|x l]; simpl;
    try discriminate; [reflexivity|].
  intro H. injection H as H. rewrite mask_sum_cons.
  destruct b; simpl; rewrite (IH _ H); reflexivity.
Qed.

Lemma mask_sum_negb (m : list bool) :
  mask_sum (map negb m) + mask_sum m = length m.
Proof.
  induction m as [|b m IH]; [reflexivity|].
  cbn [map length]. rewrite !mask_sum_cons. destruct b; simpl; lia.
Qed.

(** Reading a kept row back: the [k]-th row of the result is a row of the
    input whose mask bit is set, and rows keep their order. *)
Lemma keep_rows_nth {A} (mask : list bool) (l : list A) (k : nat) (x : A) :
  nth_error (keep_rows mask l) k = Some x ->
  exists i, nth_error mask i = Some true /\ nth_error l i = Some x /\ k <= i.
Proof.
  revert l k. induction mask as [|b mask IH]; intros [|y l] k; simpl;
    try (destruct k; discriminate).
  destruct b.
  - destruct k as [|k]; simpl.
    + intro H. exists 0. simpl. repeat split; [exact H | lia].
    + intro H. destruct (IH _ _ H) as [i [H1 [H2 H3]]].
      exists (S i). simpl. repeat split; [exact H1 | exact H2 | lia].
  - intro H. destruct (IH _ _ H) as [i [H1 [H2 H3]]].
    exists (S i). simpl. repeat split; [exact H1 | exact H2 | lia].
Qed.

(** What [drop_duplicates] keeps of the key column repeats nothing. *)
Lemma kept_cells_no_repeat (seen cs : list cell) :
  mask_any (duplicated_from seen
              (keep_rows (map negb (duplicated_from seen cs)) cs)) = false.
Proof.
  revert seen. induction cs as [|c cs IH]; intro seen; [reflexivity|].
  cbn [duplicated_from]. destruct (existsb (cell_eqb c) seen) eqn:E.
  - cbn [map negb keep_rows]. apply IH.
  - cbn [map negb keep_rows duplicated_from]. rewrite E.
    unfold mask_any. cbn [existsb]. apply IH.
Qed.

Lemma getitem_frame_rows (mask : list bool) (df : DataFrame) (col : string)
  (s : Series) :
  getitem df col = Ok s ->
  getitem (frame_rows mask df) col
  = Ok (mkSeries (dtype_of s) (keep_rows mask (values s))).
Proof.
  induction df as [|[c s0] df IH]; simpl; [discriminate|].
  destruct (String.eqb c col); [|exact IH].
  intro H. injection H as <-. reflexivity.
Qed.

Lemma nrows_frame_rows (n : nat) (mask : list bool) (df : DataFrame) :
  frame_ok n df -> df <> [] -> length mask = n ->
  nrows df = n /\ nrows (frame_rows mask df) = mask_sum mask.
Proof.
  intros [_ Hlen] Hne Hm. destruct df as [|[c s] df]; [contradiction|].
  inversion Hlen as [|? ? Hs _]; subst. simpl in *.
  split; [exact Hs|]. apply keep_rows_length. now rewrite Hs.
Qed.

(** C7.  When the report of a well-formed frame is a single duplicates
    issue of count 2 for the column [C], the correction succeeds, the
    corrected frame has 2 rows fewer, its column [C] repeats no value, and
    the rows left out of every column are those whose cell in [C] repeats
    the cell of an earlier row. *)
Theorem doublons_remedy_drops_repeats
  (n : nat) (df : DataFrame) (row : issue) :
  frame_ok n df ->
  analyse_data df = [row] ->
  Probleme row = lbl_doublons ->
  NbOccurrences row = 2 ->
  exists s df' s' keep,
    getitem df (Colonne row) = Ok s /\
    correct df (analyse_data df) = Ok df' /\
    nrows df' + 2 = nrows df /\
    getitem df' (Colonne row) = Ok s' /\
    (forall k, ~ repeats_earlier (values s') k) /\
    length keep = n /\
    (forall k, nth_error keep k = Some false <->
               repeats_earlier (values s) k) /\
    df' = frame_rows keep df.
Proof.
  intros Hok Hdiag Hp Hn.
  assert (Hin : In row (analyse_data df)) by (rewrite Hdiag; now left).
  apply analyse_data_In in Hin. destruct Hin as [s [Hs Hi]].
  destruct (proj1 (col_issues_doublons _ _ _) (conj Hi Hp)) as [Hrow _].
  assert (Hcount : mask_sum (duplicated (values s)) = 2).
  { rewrite <- Hn, Hrow. reflexivity. }
  pose proof (In_getitem _ _ _ (proj1 Hok) Hs) as Hget.
  assert (Hlen : length (values s) = n).
  { destruct Hok as [_ Hall]. rewrite Forall_forall in Hall.
    exact (Hall _ Hs). }
  set (keep := map negb (duplicated (values s))).
  assert (Hklen : length keep = n).
  { unfold keep. rewrite length_map. unfold duplicated.
    now rewrite duplicated_from_length. }
  assert (Hne : df <> []) by (intro E; rewrite E in Hs; exact Hs).
  destruct (nrows_frame_rows n keep df Hok Hne Hklen) as [Hn1 Hn2].
  exists s, (frame_rows keep df),
    (mkSeries (dtype_of s) (keep_rows keep (values s))), keep.
  split; [exact Hget|]. split; [|split; [|split; [|split; [|split; [|split]]]]].
  - rewrite Hdiag, correct_single, (correct_row_doublons _ _ Hp).
    unfold remedy_doublons. rewrite Hget. reflexivity.
  - rewrite Hn1, Hn2. pose proof (mask_sum_negb (duplicated (values s))) as H.
    fold keep in H. rewrite Hcount in H. unfold duplicated in H.
    rewrite duplicated_from_length in H. lia.
  - now apply getitem_frame_rows.
  - intros k Hk. apply duplicated_nth in Hk. apply nth_error_In in Hk.
    apply mask_any_In in Hk. simpl in Hk. unfold keep, duplicated in Hk.
    rewrite kept_cells_no_repeat in Hk. discriminate.
  - exact Hklen.
  - intro k. rewrite <- duplicated_nth. unfold keep.
    rewrite nth_error_map.
    destruct (nth_error (duplicated (values s)) k) as [[|]|]; simpl;
      split; intro H; try discriminate; reflexivity.
  - reflexivity.
Qed.

Lemma doublons_remedy_witness :
  let df := [("C", col_C); ("D", col_D)] in
  let row := mkIssue "C" lbl_doublons 2 "Supprimer doublons" in
  frame_ok 5 df /\
  analyse_data df = [row] /\
  Probleme row = lbl_doublons /\
  NbOccurrences row = 2 /\
  exists s df' s' keep,
    getitem df (Colonne row) = Ok s /\
    correct df (analyse_data df) = Ok df' /\
    nrows df' + 2 = nrows df /\
    getitem df' (Colonne row) = Ok s' /\
    (forall k, ~ repeats_earlier (values s') k) /\
    length keep = 5 /\
    (forall k, nth_error keep k = Some false <->
               repeats_earlier (values s) k) /\
    df' = frame_rows keep df.
Proof.
  intros df row.
  assert (H1 : frame_ok 5 df).
  { split.
    - repeat constructor; simpl; intuition discriminate.
    - repeat constructor. }
  assert (H2 : analyse_data df = [row]) by (vm_compute; reflexivity).
  assert (H3 : Probleme row = lbl_doublons) by reflexivity.
  assert (H4 : NbOccurrences row = 2) by reflexivity.
  repeat (split; [assumption|]).
  exact (doublons_remedy_drops_repeats 5 df row H1 H2 H3 H4).
Defined.

(** ** Missing cells among the duplicates *)

Lemma existsb_eqb_NaN (l : list cell) :
  existsb (cell_eqb NaN) l = existsb isnull l.
Proof.
  induction l as [|x l IH]; simpl; [reflexivity|].
  rewrite IH. destruct x; reflexivity.
Qed.

Lemma existsb_isnull_cons (c : cell) (l : list cell) :
  isnull c = false -> existsb isnull (c :: l) = existsb isnull l.
Proof. intro H. simpl. now rewrite H. Qed.

(** All missing cells but the first one met are marked. *)
Lemma duplicated_from_missing (seen cs : list cell) :
  mask_sum (map isnull cs)
  <= mask_sum (duplicated_from seen cs)
     + (if existsb isnull seen then 0 else 1).
Proof.
  revert seen. induction cs as [|c cs IH]; intro seen.
  - simpl. unfold mask_sum. simpl. lia.
  - cbn [map duplicated_from]. rewrite mask_sum_cons.
    destruct (isnull c) eqn:Ec.
    + destruct c; try discriminate. rewrite existsb_eqb_NaN.
      destruct (existsb isnull seen) eqn:E.
      * rewrite mask_sum_cons. specialize (IH seen). rewrite E in IH. lia.
      * rewrite mask_sum_cons. specialize (IH (NaN :: seen)).
        simpl in IH. lia.
    + destruct (existsb (cell_eqb c) seen).
      * rewrite mask_sum_cons. specialize (IH seen). lia.
      * rewrite mask_sum_cons. specialize (IH (c :: seen)).
        rewrite (existsb_isnull_cons _ _ Ec) in IH. lia.
Qed.

(** After [drop_duplicates] one missing cell is left, when there was one
    and none had been seen before. *)
Lemma kept_missing_count (seen cs : list cell) :
  mask_sum (map isnull (keep_rows (map negb (duplicated_from seen cs)) cs))
  = if existsb isnull seen then 0
    else if existsb isnull cs then 1 else 0.
Proof.
  revert seen. induction cs as [|c cs IH]; intro seen.
  - simpl. destruct (existsb isnull seen); reflexivity.
  - cbn [duplicated_from].
    destruct (existsb (cell_eqb c) seen) eqn:E;
      cbn [map negb keep_rows].
    + rewrite IH. destruct (existsb isnull seen) eqn:En; [reflexivity|].
      destruct c; simpl; try reflexivity.
      rewrite existsb_eqb_NaN in E. congruence.
    + rewrite mask_sum_cons, IH. destruct c; simpl.
      * rewrite existsb_eqb_NaN in E. rewrite E. reflexivity.
      * reflexivity.
      * reflexivity.
Qed.

Lemma isnull_sum_exists (cs : list cell) :
  0 < mask_sum (map isnull cs) -> existsb isnull cs = true.
Proof.
  intro H. apply mask_sum_pos, isnull_In in H.
  apply existsb_exists. exists NaN. auto.
Qed.

Lemma nth_error_mask_length (cs : list cell) (i : nat) (c : cell) :
  nth_error cs i = Some c ->
  exists b, nth_error (duplicated cs) i = Some b.
Proof.
  intro H. destruct (nth_error (duplicated cs) i) as [b|] eqn:E; [eauto|].
  apply nth_error_None in E. unfold duplicated in E.
  rewrite duplicated_from_length in E.
  assert (i < length cs) by (apply nth_error_Some; congruence). lia.
Qed.

(** ** What the correction pass keeps of the frame *)

Lemma setitem_signature (df : DataFrame) (col : string) (s s' : Series) :
  getitem df col = Ok s ->
  is_numeric (dtype_of s') = is_numeric (dtype_of s) ->
  signature (setitem df col s') = signature df.
Proof.
  induction df as [|[c s0] df IH]; simpl; [discriminate|].
  destruct (String.eqb c col) eqn:E; simpl.
  - intros H Hn. injection H as <-. now rewrite Hn.
  - intros H Hn. now rewrite IH.
Qed.

Lemma frame_rows_signature (mask : list bool) (df : DataFrame) :
  signature (frame_rows mask df) = signature df.
Proof.
  unfold signature, frame_rows. rewrite map_map. reflexivity.
Qed.

Lemma remedy_manquantes_signature (col : string) (df df' : DataFrame) :
  remedy_manquantes col df = Ok df' -> signature df' = signature df.
Proof.
  unfold remedy_manquantes. destruct (getitem df col) as [s|e] eqn:E; simpl;
    [|discriminate].
  destruct (is_numeric (dtype_of s)); intro H; injection H as <-;
    [|reflexivity].
  now apply (setitem_signature _ _ s).
Qed.

Lemma remedy_aberrantes_signature (col : string) (df df' : DataFrame) :
  remedy_aberrantes col df = Ok df' -> signature df' = signature df.
Proof.
  unfold remedy_aberrantes. destruct (getitem df col) as [s|e] eqn:E; simpl;
    [|discriminate].
  destruct (is_numeric (dtype_of s)) eqn:En; [|discriminate].
  intro H; injection H as <-.
  apply (setitem_signature _ _ s); [exact E | now rewrite En].
Qed.

Lemma remedy_doublons_signature (col : string) (df df' : DataFrame) :
  remedy_doublons col df = Ok df' -> signature df' = signature df.
Proof.
  unfold remedy_doublons. destruct (getitem df col) as [s|e]; simpl;
    [|discriminate].
  intro H; injection H as <-. apply frame_rows_signature.
Qed.

Lemma correct_row_signature (row : issue) (df df' : DataFrame) :
  correct_row_frame row df = Ok df' -> signature df' = signature df.
Proof.
  unfold correct_row_frame.
  destruct (contains "manquantes" (Probleme row)).
  - destruct (remedy_manquantes (Colonne row) df) as [d1|e] eqn:E1;
      [|discriminate].
    apply remedy_manquantes_signature in E1. rewrite <- E1. simpl.
    destruct (contains "aberrantes" (Probleme row)).
    + destruct (remedy_aberrantes (Colonne row) d1) as [d2|e] eqn:E2;
        [|discriminate].
      apply remedy_aberrantes_signature in E2. rewrite <- E2. simpl.
      destruct (contains "Doublons" (Probleme row)).
      * apply remedy_doublons_signature.
      * intro H; now injection H as <-.
    + simpl. destruct (contains "Doublons" (Probleme row)).
      * apply remedy_doublons_signature.
      * intro H; now injection H as <-.
  - simpl. destruct (contains "aberrantes" (Probleme row)).
    + destruct (remedy_aberrantes (Colonne row) df) as [d2|e] eqn:E2;
        [|discriminate].
      apply remedy_aberrantes_signature in E2. rewrite <- E2. simpl.
      destruct (contains "Doublons" (Probleme row)).
      * apply remedy_doublons_signature.
      * intro H; now injection H as <-.
    + simpl. destruct (contains "Doublons" (Probleme row)).
      * apply remedy_doublons_signature.
      * intro H; now injection H as <-.
Qed.

Lemma correct_signature (diag : list issue) (df df' : DataFrame) :
  correct df diag = Ok df' -> signature df' = signature df.
Proof.
  revert df. induction diag as [|row diag IH]; intro df; simpl.
  - intro H; now injection H as <-.
  - destruct (correct_row_frame row df) as [d|e] eqn:E; [|discriminate].
    simpl. intro H. rewrite (IH _ H). now apply correct_row_signature in E.
Qed.

Lemma signature_columns (df : DataFrame) :
  columns df = map fst (signature df).
Proof.
  unfold columns, signature. now rewrite map_map.
Qed.

Lemma signature_select (df : DataFrame) :
  select_dtypes_number df
  = map fst (filter (fun lb : string * bool => snd lb) (signature df)).
Proof.
  unfold select_dtypes_number, signature.
  induction df as [|[c s] df IH]; simpl; [reflexivity|].
  destruct (is_numeric (dtype_of s)); simpl; now rewrite IH.
Qed.

(** X1.  Whatever report it is run on, a correction pass that ends
    without raising leaves the column labels, their order and their count
    as they were, and the labels that [select_dtypes(include=np.number)]
    offers afterwards to the chooser and to the correlation matrix are
    those it would have offered before. *)
Theorem correct_keeps_columns (df df' : DataFrame) (diag : list issue) :
  correct df diag = Ok df' ->
  columns df' = columns df /\
  ncols df' = ncols df /\
  select_dtypes_number df' = select_dtypes_number df.
Proof.
  intro H. apply correct_signature in H.
  unfold ncols. rewrite !signature_columns, !signature_select, H. auto.
Qed.

Lemma correct_keeps_columns_witness :
  exists df',
    correct df_mixed (analyse_data df_mixed) = Ok df' /\
    columns df' = columns df_mixed /\
    ncols df' = ncols df_mixed /\
    select_dtypes_number df' = select_dtypes_number df_mixed.
Proof.
  eexists.
  assert (H : correct df_mixed (analyse_data df_mixed)
              = Ok ?[d]) by (vm_compute; reflexivity).
  split; [exact H|].
  exact (correct_keeps_columns _ _ _ H).
Defined.

(** ** A relation kept by each remedy is kept by the pass *)

Section PassRelation.

Variable R : DataFrame -> DataFrame -> Prop.
Hypothesis R_refl : forall d, R d d.
Hypothesis R_trans : forall d1 d2 d3, R d1 d2 -> R d2 d3 -> R d1 d3.
Hypothesis R_manquantes :
  forall col d d', remedy_manquantes col d = Ok d' -> R d d'.
Hypothesis R_aberrantes :
  forall col d d', remedy_aberrantes col d = Ok d' -> R d d'.
Hypothesis R_doublons :
  forall col d d', remedy_doublons col d = Ok d' -> R d d'.

Lemma stage_rel (b : bool) (f : DataFrame -> result DataFrame)
  (d d' : DataFrame) :
  (forall x x', f x = Ok x' -> R x x') ->
  (if b then f d else Ok d) = Ok d' -> R d d'.
Proof.
  intros Hf. destruct b; [apply Hf|].
  intro H. injection H as <-. apply R_refl.
Qed.

Lemma correct_row_rel (row : issue) (d d' : DataFrame) :
  correct_row_frame row d = Ok d' -> R d d'.
Proof.
  unfold correct_row_frame. intro H.
  destruct (if contains "manquantes" (Probleme row)
            then remedy_manquantes (Colonne row) d else Ok d)
    as [d1|e] eqn:E1; [|discriminate].
  apply stage_rel in E1; [|apply R_manquantes]. simpl in H.
  destruct (if contains "aberrantes" (Probleme row)
            then remedy_aberrantes (Colonne row) d1 else Ok d1)
    as [d2|e] eqn:E2; [|discriminate].
  apply stage_rel in E2; [|apply R_aberrantes]. simpl in H.
  apply stage_rel in H; [|apply R_doublons].
  eauto.
Qed.

Lemma correct_rel (diag : list issue) (d d' : DataFrame) :
  correct d diag = Ok d' -> R d d'.
Proof.
  revert d. induction diag as [|row diag IH]; intro d; simpl.
  - intro H. injection H as <-. apply R_refl.
  - destruct (correct_row_frame row d) as [d1|e] eqn:E; [|discriminate].
    simpl. intro H. apply correct_row_rel in E. eauto.
Qed.

End PassRelation.

(** ** Row counts through the pass *)

Lemma setitem_rows_all (n : nat) (df : DataFrame) (col : string)
  (s s' : Series) :
  getitem df col = Ok s ->
  length (values s') = length (values s) ->
  rows_all n df -> rows_all n (setitem df col s').
Proof.
  unfold rows_all. induction df as [|[c s0] df IH]; simpl; [discriminate|].
  intros Hg Hl Hall. apply Forall_cons_iff in Hall. destruct Hall as [H0 Hrest].
  destruct (String.eqb c col).
  - injection Hg as <-. constructor; [simpl in *; congruence | exact Hrest].
  - constructor; [exact H0 | now apply IH].
Qed.

Lemma np_where_length (mask : list bool) (v : option Q) (cs : list cell) :
  length mask = length cs -> length (np_where mask v cs) = length cs.
Proof.
  intro H. unfold np_where. rewrite length_map, length_combine, H.
  apply Nat.min_id.
Qed.

Lemma fillna_length (v : option Q) (cs : list cell) :
  length (fillna v cs) = length cs.
Proof. destruct v; simpl; [apply length_map | reflexivity]. Qed.

Lemma frame_rows_rows_all (n : nat) (mask : list bool) (df : DataFrame) :
  length mask = n -> rows_all n df ->
  rows_all (mask_sum mask) (frame_rows mask df).
Proof.
  intros Hm Hall. unfold rows_all, frame_rows in *.
  rewrite Forall_map. eapply Forall_impl; [|exact Hall].
  intros [c s] H. simpl in *. apply keep_rows_length. congruence.
Qed.

(** [duplicated] never marks the first row. *)
Lemma kept_rows_bounds (cs : list cell) :
  mask_sum (map negb (duplicated cs)) <= length cs /\
  (0 < length cs -> 0 < mask_sum (map negb (duplicated cs))).
Proof.
  split.
  - pose proof (mask_sum_le_length (map negb (duplicated cs))) as H.
    rewrite length_map in H. unfold duplicated in H.
    now rewrite duplicated_from_length in H.
  - destruct cs as [|c cs]; simpl; [lia|]. intros _.
    unfold duplicated. simpl. rewrite mask_sum_cons. simpl. lia.
Qed.

Lemma shrinks_refl (d : DataFrame) : shrinks d d.
Proof. intros n H. exists n. auto. Qed.

Lemma shrinks_trans (d1 d2 d3 : DataFrame) :
  shrinks d1 d2 -> shrinks d2 d3 -> shrinks d1 d3.
Proof.
  intros H12 H23 n H. destruct (H12 n H) as [n2 [H2 [Hle2 Hpos2]]].
  destruct (H23 n2 H2) as [n3 [H3 [Hle3 Hpos3]]].
  exists n3. repeat split; [exact H3 | lia | auto].
Qed.

Lemma remedy_manquantes_shrinks (col : string) (d d' : DataFrame) :
  remedy_manquantes col d = Ok d' -> shrinks d d'.
Proof.
  unfold remedy_manquantes. destruct (getitem d col) as [s|e] eqn:E; simpl;
    [|discriminate].
  destruct (is_numeric (dtype_of s)); intro H; injection H as <-;
    [|apply shrinks_refl].
  intros n Hall. exists n. repeat split; auto.
  apply (setitem_rows_all n d col s); [exact E | | exact Hall].
  simpl. apply fillna_length.
Qed.

Lemma remedy_aberrantes_shrinks (col : string) (d d' : DataFrame) :
  remedy_aberrantes col d = Ok d' -> shrinks d d'.
Proof.
  unfold remedy_aberrantes. destruct (getitem d col) as [s|e] eqn:E; simpl;
    [|discriminate].
  destruct (is_numeric (dtype_of s)); [|discriminate].
  intro H; injection H as <-.
  intros n Hall. exists n. repeat split; auto.
  apply (setitem_rows_all n d col s); [exact E | | exact Hall].
  simpl. apply np_where_length. apply length_map.
Qed.

Lemma remedy_doublons_shrinks (col : string) (d d' : DataFrame) :
  remedy_doublons col d = Ok d' -> shrinks d d'.
Proof.
  unfold remedy_doublons. destruct (getitem d col) as [s|e] eqn:E; simpl;
    [|discriminate].
  intro H; injection H as <-. intros n Hall.
  assert (Hs : length (values s) = n).
  { apply getitem_In in E. unfold rows_all in Hall.
    rewrite Forall_forall in Hall. exact (Hall _ E). }
  destruct (kept_rows_bounds (values s)) as [Hle Hpos].
  exists (mask_sum (map negb (duplicated (values s)))).
  repeat split; [|lia|lia].
  apply (frame_rows_rows_all n); [|exact Hall].
  rewrite length_map. unfold duplicated. now rewrite duplicated_from_length.
Qed.

Lemma correct_shrinks (diag : list issue) (d d' : DataFrame) :
  correct d diag = Ok d' -> shrinks d d'.
Proof.
  apply correct_rel.
  - apply shrinks_refl.
  - apply shrinks_trans.
  - apply remedy_manquantes_shrinks.
  - apply remedy_aberrantes_shrinks.
  - apply remedy_doublons_shrinks.
Qed.

Lemma frame_ok_nrows (n : nat) (df : DataFrame) :
  frame_ok n df -> df <> [] -> nrows df = n.
Proof.
  intros [_ Hall] Hne. destruct df as [|[c s] df]; [contradiction|].
  apply Forall_cons_iff in Hall. exact (proj1 Hall).
Qed.

(** X2.  On a frame with distinct labels and columns of one length, a
    correction pass that ends without raising gives again such a frame:
    no row is added, and a frame that had rows still has rows, because
    [drop_duplicates] always keeps the first row.  This holds for any
    report. *)
Theorem correct_keeps_frame_shape
  (n : nat) (df df' : DataFrame) (diag : list issue) :
  frame_ok n df ->
  correct df diag = Ok df' ->
  (exists n', frame_ok n' df' /\ n' <= n /\ (0 < n -> 0 < n')) /\
  nrows df' <= nrows df /\
  (0 < nrows df -> 0 < nrows df').
Proof.
  intros [Hnd Hall] H.
  destruct (correct_shrinks _ _ _ H n Hall) as [n' [Hall' [Hle Hpos]]].
  pose proof (correct_signature _ _ _ H) as Hsig.
  assert (Hcols : columns df' = columns df)
    by (rewrite !signature_columns; now rewrite Hsig).
  assert (Hok' : frame_ok n' df') by (split; [now rewrite Hcols | exact Hall']).
  split; [exists n'; auto|].
  destruct df as [|[c s] df].
  - destruct df'; [simpl; split; lia | discriminate].
  - destruct df' as [|[c' s'] df']; [discriminate|].
    rewrite (frame_ok_nrows n' _ Hok') by discriminate.
    rewrite (frame_ok_nrows n ((c, s) :: df))
      by first [discriminate | split; assumption].
    split; [exact Hle | exact Hpos].
Qed.

Lemma correct_keeps_frame_shape_witness :
  exists df',
    frame_ok 13 df_mixed /\
    correct df_mixed (analyse_data df_mixed) = Ok df' /\
    nrows df' <= nrows df_mixed /\
    (0 < nrows df_mixed -> 0 < nrows df').
Proof.
  eexists.
  assert (H1 : frame_ok 13 df_mixed).
  { split.
    - repeat constructor; simpl; intuition discriminate.
    - repeat constructor. }
  assert (H2 : correct df_mixed (analyse_data df_mixed) = Ok ?[d])
    by (vm_compute; reflexivity).
  split; [exact H1 | split; [exact H2|]].
  exact (proj2 (correct_keeps_frame_shape 13 _ _ _ H1 H2)).
Defined.

(** ** The pass on its own report *)

Lemma col_issues_cases (col : string) (s : Series) (i : issue) :
  In i (col_issues col s) ->
  (i = mkIssue col lbl_manquantes (isnull_sum s)
         "Remplacer par moyenne/médiane" /\ 0 < isnull_sum s) \/
  (i = mkIssue col lbl_aberrantes (mask_sum (outlier_mask (values s)))
         "Remplacer par médiane" /\
   is_numeric (dtype_of s) = true /\
   0 < mask_sum (outlier_mask (values s))) \/
  (i = mkIssue col lbl_doublons (mask_sum (duplicated (values s)))
         "Supprimer doublons" /\
   mask_any (duplicated (values s)) = true).
Proof.
  rewrite col_issues_eq, !in_app_iff.
  intros [H|[H|H]];
    match type of H with In _ (if ?b then _ else _) => destruct b eqn:E end;
    simpl in H; try contradiction; destruct H as [<-|[]].
  - left. split; [reflexivity | now apply Nat.ltb_lt].
  - right. left. apply andb_true_iff in E. destruct E as [E1 E2].
    split; [reflexivity | split; [exact E1 | now apply Nat.ltb_lt]].
  - right. right. split; reflexivity.
Qed.

Lemma getitem_signature (df df' : DataFrame) (col : string) (s : Series) :
  signature df' = signature df ->
  getitem df col = Ok s ->
  exists s', getitem df' col = Ok s' /\
             is_numeric (dtype_of s') = is_numeric (dtype_of s).
Proof.
  revert df'. induction df as [|[c s0] df IH]; intros [|[c' s0'] df'];
    simpl; try discriminate.
  intros Hsig Hg. injection Hsig as Hc Hn Hrest. subst c'.
  destruct (String.eqb c col).
  - injection Hg as <-. eauto.
  - now apply IH.
Qed.

Lemma applicable_signature (df df' : DataFrame) (row : issue) :
  signature df' = signature df -> applicable df row -> applicable df' row.
Proof.
  intros Hsig [s [Hg Hn]].
  destruct (getitem_signature _ _ _ _ Hsig Hg) as [s' [Hg' Hn']].
  exists s'. split; [exact Hg'|]. intro H. rewrite Hn'. auto.
Qed.

Lemma applicable_runs (df : DataFrame) (row : issue) :
  applicable df row -> exists df', correct_row_frame row df = Ok df'.
Proof.
  intros Happ. unfold correct_row_frame.
  assert (H1 : exists d1,
             (if contains "manquantes" (Probleme row)
              then remedy_manquantes (Colonne row) df else Ok df) = Ok d1 /\
             signature d1 = signature df).
  { destruct (contains "manquantes" (Probleme row)); [|eauto].
    destruct Happ as [s [Hg _]].
    assert (E : exists d1, remedy_manquantes (Colonne row) df = Ok d1).
    { unfold remedy_manquantes. rewrite Hg. simpl.
      destruct (is_numeric (dtype_of s)); eauto. }
    destruct E as [d1 E]. exists d1. split; [exact E|].
    now apply remedy_manquantes_signature in E. }
  destruct H1 as [d1 [E1 S1]]. rewrite E1. simpl.
  pose proof (applicable_signature _ _ _ S1 Happ) as Happ1.
  assert (H2 : exists d2,
             (if contains "aberrantes" (Probleme row)
              then remedy_aberrantes (Colonne row) d1 else Ok d1) = Ok d2 /\
             signature d2 = signature d1).
  { destruct (contains "aberrantes" (Probleme row)) eqn:Ec; [|eauto].
    destruct Happ1 as [s [Hg Hn]].
    assert (E : exists d2, remedy_aberrantes (Colonne row) d1 = Ok d2).
    { unfold remedy_aberrantes. rewrite Hg. simpl.
      rewrite (Hn Ec). eauto. }
    destruct E as [d2 E]. exists d2. split; [exact E|].
    now apply remedy_aberrantes_signature in E. }
  destruct H2 as [d2 [E2 S2]]. rewrite E2. simpl.
  destruct (applicable_signature _ _ _ S2 Happ1) as [s [Hg _]].
  destruct (contains "Doublons" (Probleme row)); [|eauto].
  unfold remedy_doublons. rewrite Hg. simpl. eauto.
Qed.

Lemma applicable_pass (diag : list issue) (df : DataFrame) :
  Forall (applicable df) diag -> exists df', correct df diag = Ok df'.
Proof.
  revert df. induction diag as [|row diag IH]; intros df Hall; simpl.
  - eauto.
  - apply Forall_cons_iff in Hall. destruct Hall as [Hrow Hrest].
    destruct (applicable_runs _ _ Hrow) as [d1 E]. rewrite E. simpl.
    apply IH. eapply Forall_impl; [|exact Hrest].
    intros r. apply applicable_signature.
    now apply correct_row_signature in E.
Qed.

Lemma report_applicable (df : DataFrame) :
  NoDup (columns df) -> Forall (applicable df) (analyse_data df).
Proof.
  intro Hnd. apply Forall_forall. intros row Hin.
  apply analyse_data_In in Hin. destruct Hin as [s [Hs Hi]].
  exists s. split; [now apply In_getitem|].
  destruct (col_issues_cases _ _ _ Hi) as [[-> _]|[[_ [Hn _]]|[-> _]]];
    simpl; try (intro; exact Hn); vm_compute; discriminate.
Qed.

(** X3.  On a frame with distinct column labels, the correction pass run
    on the report that [analyse_data] wrote for that frame never raises:
    every column a row names is still there when the row is reached, and
    the outlier remedy only meets numeric columns.  So the loop ends and
    leaves a frame behind [df]. *)
Theorem correction_of_own_report_succeeds (r : ref) (h : store) :
  NoDup (columns (h r)) ->
  exists df' h',
    correct (h r) (analyse_data (h r)) = Ok df' /\
    corrections r (analyse_data (h r)) h = Ok h' /\
    h' r = df'.
Proof.
  intro Hnd.
  destruct (applicable_pass _ _ (report_applicable _ Hnd)) as [df' E].
  pose proof (corrections_tracks r (analyse_data (h r)) h) as T.
  simpl in T. rewrite E in T. destruct T as [h' [Eh [Hr _]]].
  exists df', h'. auto.
Qed.

Lemma correction_of_own_report_witness :
  NoDup (columns df_mixed) /\
  exists df' h',
    correct df_mixed (analyse_data df_mixed) = Ok df' /\
    corrections 0 (analyse_data df_mixed) (fun _ => df_mixed) = Ok h' /\
    h' 0 = df'.
Proof.
  assert (H : NoDup (columns ((fun _ : ref => df_mixed) 0))).
  { repeat constructor; simpl; intuition discriminate. }
  split; [exact H|].
  exact (correction_of_own_report_succeeds 0 (fun _ => df_mixed) H).
Defined.

(** X4.  Every row that [analyse_data] writes makes the loop body run one
    remedy and no other, the one of the row's kind: the three substring
    tests on [Probleme] single out the label the row was written with. *)
Theorem report_row_runs_one_remedy (df : DataFrame) (row : issue) :
  In row (analyse_data df) ->
  (Probleme row = lbl_manquantes /\
   forall d, correct_row_frame row d = remedy_manquantes (Colonne row) d) \/
  (Probleme row = lbl_aberrantes /\
   forall d, correct_row_frame row d = remedy_aberrantes (Colonne row) d) \/
  (Probleme row = lbl_doublons /\
   forall d, correct_row_frame row d = remedy_doublons (Colonne row) d).
Proof.
  intro Hin. apply analyse_data_In in Hin. destruct Hin as [s [_ Hi]].
  destruct (col_issues_cases _ _ _ Hi) as [[E _]|[[E _]|[E _]]].
  - left. assert (Hp : Probleme row = lbl_manquantes) by now rewrite E.
    split; [exact Hp|]. intro d. now apply correct_row_manquantes.
  - right. left.
    assert (Hp : Probleme row = lbl_aberrantes) by now rewrite E.
    split; [exact Hp|]. intro d. now apply correct_row_aberrantes.
  - right. right.
    assert (Hp : Probleme row = lbl_doublons) by now rewrite E.
    split; [exact Hp|]. intro d. now apply correct_row_doublons.
Qed.

Lemma report_row_runs_one_remedy_witness :
  In (mkIssue "C" lbl_doublons 2 "Supprimer doublons")
     (analyse_data [("C", col_C)]) /\
  (forall d,
      correct_row_frame (mkIssue "C" lbl_doublons 2 "Supprimer doublons") d
      = remedy_doublons "C" d).
Proof.
  assert (H : In (mkIssue "C" lbl_doublons 2 "Supprimer doublons")
                 (analyse_data [("C", col_C)]))
    by (vm_compute; left; reflexivity).
  split; [exact H|].
  destruct (report_row_runs_one_remedy _ _ H) as [[E _]|[[E _]|[_ Hd]]];
    [discriminate E | discriminate E | exact Hd].
Defined.

(** ** Edge cases and bounds of the report *)

(** X5.  A frame without rows, whatever its columns, and the frame without
    columns get an empty report. *)
Theorem analyse_data_no_rows (df : DataFrame) :
  rows_all 0 df -> analyse_data df = [].
Proof.
  intro Hall. rewrite analyse_data_flat_map.
  induction df as [|[c s] df IH]; [reflexivity|].
  apply Forall_cons_iff in Hall. destruct Hall as [H0 Hrest].
  simpl in *. rewrite (IH Hrest), app_nil_r.
  apply length_zero_iff_nil in H0. rewrite col_issues_eq.
  unfold isnull_sum. rewrite H0. simpl.
  destruct (is_numeric (dtype_of s)); reflexivity.
Qed.

Lemma analyse_data_no_rows_witness :
  rows_all 0 df_norows /\ analyse_data df_norows = [].
Proof.
  assert (H : rows_all 0 df_norows) by (repeat constructor).
  split; [exact H | exact (analyse_data_no_rows df_norows H)].
Defined.

Lemma duplicated_lt_length (cs : list cell) :
  0 < length cs -> mask_sum (duplicated cs) < length cs.
Proof.
  intro H. pose proof (mask_sum_negb (duplicated cs)) as Hs.
  unfold duplicated in Hs at 3. rewrite duplicated_from_length in Hs.
  destruct (kept_rows_bounds cs) as [_ Hpos]. specialize (Hpos H). lia.
Qed.

(** X6.  Every count in the report is at least 1 and at most the number
    of rows of the column it is about; a duplicates count is below the
    number of rows, the first row never being counted. *)
Theorem report_counts_bounded (df : DataFrame) (i : issue) :
  In i (analyse_data df) ->
  exists s,
    In (Colonne i, s) df /\
    1 <= NbOccurrences i <= length (values s) /\
    (Probleme i = lbl_doublons -> NbOccurrences i < length (values s)).
Proof.
  intro Hin. apply analyse_data_In in Hin. destruct Hin as [s [Hs Hi]].
  exists s. split; [exact Hs|].
  destruct (col_issues_cases _ _ _ Hi) as [[E H]|[[E [_ H]]|[E H]]];
    rewrite E; simpl.
  - split; [|discriminate]. split; [lia|].
    unfold isnull_sum.
    pose proof (mask_sum_le_length (map isnull (values s))) as Hl.
    now rewrite length_map in Hl.
  - split; [|discriminate]. split; [lia|].
    pose proof (mask_sum_le_length (outlier_mask (values s))) as Hl.
    unfold outlier_mask in Hl at 2. now rewrite length_map in Hl.
  - apply mask_any_In, mask_sum_pos in H.
    assert (Hlen : mask_sum (duplicated (values s)) < length (values s)).
    { apply duplicated_lt_length.
      pose proof (mask_sum_le_length (duplicated (values s))) as Hl.
      unfold duplicated in Hl at 2. rewrite duplicated_from_length in Hl.
      lia. }
    split; [lia | intros _; exact Hlen].
Qed.

Lemma report_counts_bounded_witness :
  In (mkIssue "C" lbl_doublons 2 "Supprimer doublons")
     (analyse_data [("C", col_C)]) /\
  exists s,
    In ("C", s) [("C", col_C)] /\
    1 <= 2 <= length (values s) /\
    (lbl_doublons = lbl_doublons -> 2 < length (values s)).
Proof.
  assert (H : In (mkIssue "C" lbl_doublons 2 "Supprimer doublons")
                 (analyse_data [("C", col_C)]))
    by (vm_compute; left; reflexivity).
  split; [exact H|].
  exact (report_counts_bounded _ _ H).
Defined.

(** ** Running a remedy twice; what a remedy leaves alone *)

Lemma keep_rows_all_true {A} (mask : list bool) (l : list A) :
  mask_any (map negb mask) = false -> length mask = length l ->
  keep_rows mask l = l.
Proof.
  revert l. induction mask as [|b mask IH]; intros [|x l]; simpl;
    try discriminate; [reflexivity|].
  unfold mask_any. simpl. intros H Hl. apply orb_false_iff in H.
  destruct H as [Hb Hrest]. destruct b; [|discriminate].
  f_equal. apply IH; [exact Hrest | now injection Hl].
Qed.

Lemma series_eta (s : Series) : mkSeries (dtype_of s) (values s) = s.
Proof. destruct s; reflexivity. Qed.

Lemma frame_rows_all_true (n : nat) (mask : list bool) (df : DataFrame) :
  mask_any (map negb mask) = false -> length mask = n -> rows_all n df ->
  frame_rows mask df = df.
Proof.
  intros Hm Hl Hall. unfold frame_rows.
  rewrite <- (map_id df) at 2. apply map_ext_in. intros [c s] Hin.
  unfold rows_all in Hall. rewrite Forall_forall in Hall.
  specialize (Hall _ Hin). simpl in *.
  rewrite keep_rows_all_true by congruence. now rewrite series_eta.
Qed.

(** X7.  [drop_duplicates] on a column is idempotent: on a frame whose
    columns have one length, running the duplicates remedy a second time
    on the same column changes nothing. *)
Theorem remedy_doublons_idempotent
  (n : nat) (col : string) (df df1 : DataFrame) :
  rows_all n df ->
  remedy_doublons col df = Ok df1 ->
  remedy_doublons col df1 = Ok df1.
Proof.
  intros Hall H. unfold remedy_doublons in H.
  destruct (getitem df col) as [s|e] eqn:Hg; simpl in H; [|discriminate].
  injection H as <-.
  set (keep := map negb (duplicated (values s))).
  assert (Hs : length (values s) = n).
  { apply getitem_In in Hg. unfold rows_all in Hall.
    rewrite Forall_forall in Hall. exact (Hall _ Hg). }
  assert (Hk : length keep = n).
  { unfold keep. rewrite length_map. unfold duplicated.
    now rewrite duplicated_from_length. }
  unfold remedy_doublons.
  rewrite (getitem_frame_rows keep _ _ _ Hg). simpl. f_equal.
  apply (frame_rows_all_true (mask_sum keep)).
  - rewrite map_map.
    rewrite (map_ext (fun b => negb (negb b)) (fun b => b))
      by (intro b; apply negb_involutive).
    rewrite map_id. unfold keep, duplicated. apply kept_cells_no_repeat.
  - rewrite length_map. unfold duplicated. rewrite duplicated_from_length.
    apply keep_rows_length. congruence.
  - now apply (frame_rows_rows_all n).
Qed.

Lemma remedy_doublons_idempotent_witness :
  rows_all 5 [("C", col_C); ("D", col_D)] /\
  exists df1,
    remedy_doublons "C" [("C", col_C); ("D", col_D)] = Ok df1 /\
    remedy_doublons "C" df1 = Ok df1.
Proof.
  assert (H1 : rows_all 5 [("C", col_C); ("D", col_D)])
    by (repeat constructor).
  split; [exact H1|]. eexists.
  assert (H2 : remedy_doublons "C" [("C", col_C); ("D", col_D)] = Ok ?[d])
    by (vm_compute; reflexivity).
  split; [exact H2|].
  exact (remedy_doublons_idempotent 5 "C" _ _ H1 H2).
Defined.

Lemma setitem_setitem (df : DataFrame) (col : string) (s1 s2 : Series) :
  setitem (setitem df col s1) col s2 = setitem df col s2.
Proof.
  induction df as [|[c s0] df IH]; simpl.
  - now rewrite String.eqb_refl.
  - destruct (String.eqb c col) eqn:E; simpl; rewrite E; [reflexivity|].
    now rewrite IH.
Qed.

Lemma setitem_same (df : DataFrame) (col : string) (s : Series) :
  getitem df col = Ok s -> setitem df col s = df.
Proof.
  induction df as [|[c s0] df IH]; simpl; [discriminate|].
  destruct (String.eqb c col).
  - intro H. now injection H as <-.
  - intro H. now rewrite IH.
Qed.

Lemma fillna_no_null (q : Q) (cs : list cell) :
  existsb isnull (fillna (Some q) cs) = false.
Proof.
  simpl. induction cs as [|c cs IH]; [reflexivity|].
  simpl. rewrite IH. destruct c; reflexivity.
Qed.

Lemma fillna_without_null (v : option Q) (cs : list cell) :
  existsb isnull cs = false -> fillna v cs = cs.
Proof.
  destruct v as [q|]; [|reflexivity]. simpl.
  induction cs as [|c cs IH]; [reflexivity|]. simpl.
  intro H. apply orb_false_iff in H. destruct H as [Hc Hrest].
  rewrite Hc. f_equal. now apply IH.
Qed.

Lemma fillna_median_stable (cs : list cell) :
  let cs1 := fillna (median cs) cs in
  fillna (median cs1) cs1 = cs1.
Proof.
  destruct (median cs) as [m|] eqn:E; simpl.
  - apply fillna_without_null. apply (fillna_no_null m).
  - now rewrite E.
Qed.

(** X8.  The missing-value remedy is idempotent: run a second time on the
    same column it changes nothing, whether the first run filled the
    cells, found no median to fill them with, or skipped a text column. *)
Theorem remedy_manquantes_idempotent (col : string) (df df1 : DataFrame) :
  remedy_manquantes col df = Ok df1 ->
  remedy_manquantes col df1 = Ok df1.
Proof.
  unfold remedy_manquantes at 1.
  destruct (getitem df col) as [s|e] eqn:Hg; simpl; [|discriminate].
  destruct (is_numeric (dtype_of s)) eqn:En; intro H; injection H as <-.
  - unfold remedy_manquantes.
    rewrite (getitem_setitem _ _ _ _ Hg). simpl. rewrite En.
    rewrite setitem_setitem. f_equal. f_equal. f_equal.
    apply fillna_median_stable.
  - unfold remedy_manquantes. rewrite Hg. simpl. now rewrite En.
Qed.

Lemma remedy_manquantes_idempotent_witness :
  exists df1,
    remedy_manquantes "A" df_A = Ok df1 /\
    remedy_manquantes "A" df1 = Ok df1.
Proof.
  eexists.
  assert (H : remedy_manquantes "A" df_A = Ok ?[d])
    by (vm_compute; reflexivity).
  split; [exact H | exact (remedy_manquantes_idempotent "A" _ _ H)].
Defined.

Lemma getitem_setitem_other (df : DataFrame) (col col' : string)
  (s s' : Series) :
  col' <> col -> getitem df col = Ok s ->
  getitem (setitem df col s') col' = getitem df col'.
Proof.
  intros Hne. induction df as [|[c s0] df IH]; simpl; [discriminate|].
  destruct (String.eqb c col) eqn:E; simpl.
  - apply String.eqb_eq in E. subst c. intros _.
    destruct (String.eqb col col') eqn:E'; [|reflexivity].
    apply String.eqb_eq in E'. congruence.
  - intro H. destruct (String.eqb c col'); [reflexivity | now apply IH].
Qed.

Lemma remedy_manquantes_other (col col' : string) (df df' : DataFrame) :
  col' <> col -> remedy_manquantes col df = Ok df' ->
  getitem df' col' = getitem df col'.
Proof.
  intros Hne H. unfold remedy_manquantes in H.
  destruct (getitem df col) as [s|e] eqn:Hg; simpl in H; [|discriminate].
  destruct (is_numeric (dtype_of s)); injection H as <-; [|reflexivity].
  now apply (getitem_setitem_other _ _ _ s).
Qed.

Lemma remedy_aberrantes_other (col col' : string) (df df' : DataFrame) :
  col' <> col -> remedy_aberrantes col df = Ok df' ->
  getitem df' col' = getitem df col'.
Proof.
  intros Hne H. unfold remedy_aberrantes in H.
  destruct (getitem df col) as [s|e] eqn:Hg; simpl in H; [|discriminate].
  destruct (is_numeric (dtype_of s)); [|discriminate]. injection H as <-.
  now apply (getitem_setitem_other _ _ _ s).
Qed.

(** X9.  The missing-value remedy and the outlier remedy write no column
    but the one they are called on: every other column of the frame reads
    after the remedy as it read before. *)
Theorem fill_and_outlier_remedies_are_local
  (col col' : string) (df df' : DataFrame) :
  col' <> col ->
  remedy_manquantes col df = Ok df' \/ remedy_aberrantes col df = Ok df' ->
  getitem df' col' = getitem df col'.
Proof.
  intros Hne [H|H].
  - now apply (remedy_manquantes_other col).
  - now apply (remedy_aberrantes_other col).
Qed.

Lemma fill_and_outlier_remedies_local_witness :
  "K" <> "A" /\
  exists df',
    remedy_manquantes "A" df_A = Ok df' /\
    getitem df' "K" = getitem df_A "K".
Proof.
  assert (H1 : "K" <> "A") by discriminate.
  split; [exact H1|]. eexists.
  assert (H2 : remedy_manquantes "A" df_A = Ok ?[d])
    by (vm_compute; reflexivity).
  split; [exact H2|].
  exact (fill_and_outlier_remedies_are_local "A" "K" _ _ H1 (or_introl H2)).
Defined.

(** X10.  On a numeric column the outlier remedy never raises, gives a
    [float64] column of the same length, and neither fills nor creates a
    missing cell: the cells that are missing afterwards are those that
    were missing before. *)
Theorem remedy_aberrantes_keeps_missing
  (col : string) (df : DataFrame) (s : Series) :
  getitem df col = Ok s ->
  is_numeric (dtype_of s) = true ->
  exists s',
    remedy_aberrantes col df = Ok (setitem df col s') /\
    dtype_of s' = Float64 /\
    length (values s') = length (values s) /\
    map isnull (values s') = map isnull (values s).
Proof.
  intros Hg Hn.
  exists (mkSeries Float64
            (np_where (map (gt_3std (mean (values s)) (variance (values s)))
                           (values s))
                      (median (values s)) (values s))).
  split; [|split; [reflexivity|]].
  - unfold remedy_aberrantes. rewrite Hg. simpl. now rewrite Hn.
  - simpl. rewrite np_where_map. split; [apply length_map|].
    rewrite map_map. apply map_ext_in. intros c Hc.
    destruct (gt_3std (mean (values s)) (variance (values s)) c) eqn:E;
      [|reflexivity].
    apply gt_3std_beyond in E.
    destruct E as [x [-> [m [v [Hm _]]]]].
    destruct (median_defined _ (mean_present _ _ Hm)) as [q Hq].
    now rewrite Hq.
Qed.

Lemma remedy_aberrantes_keeps_missing_witness :
  getitem df_mixed "Y" = Ok col_Y /\
  is_numeric (dtype_of col_Y) = true /\
  exists s',
    remedy_aberrantes "Y" df_mixed = Ok (setitem df_mixed "Y" s') /\
    dtype_of s' = Float64 /\
    length (values s') = length (values col_Y) /\
    map isnull (values s') = map isnull (values col_Y).
Proof.
  assert (H1 : getitem df_mixed "Y" = Ok col_Y) by reflexivity.
  assert (H2 : is_numeric (dtype_of col_Y) = true) by reflexivity.
  repeat (split; [assumption|]).
  exact (remedy_aberrantes_keeps_missing "Y" df_mixed col_Y H1 H2).
Defined.

(** ** Rows the pass cannot apply, rows it passes over *)

Lemma getitem_absent (df : DataFrame) (col : string) :
  ~ In col (columns df) -> getitem df col = Raise KeyError.
Proof.
  induction df as [|[c s] df IH]; simpl; [reflexivity|].
  intro H. destruct (String.eqb c col) eqn:E.
  - apply String.eqb_eq in E. tauto.
  - apply IH. tauto.
Qed.

(** X11.  A row naming a column the frame does not have aborts the pass
    with [KeyError] as soon as one of its three tests fires, the rows
    after it being left unapplied; a row whose [Probleme] holds none of
    the three keywords is passed over. *)
Theorem row_on_absent_column_or_unknown_problem
  (df : DataFrame) (row : issue) (rest : list issue) :
  (~ In (Colonne row) (columns df) ->
   contains "manquantes" (Probleme row)
   || contains "aberrantes" (Probleme row)
   || contains "Doublons" (Probleme row) = true ->
   correct df (row :: rest) = Raise KeyError) /\
  (contains "manquantes" (Probleme row) = false ->
   contains "aberrantes" (Probleme row) = false ->
   contains "Doublons" (Probleme row) = false ->
   correct df (row :: rest) = correct df rest).
Proof.
  split.
  - intros Habs Hany. apply getitem_absent in Habs.
    simpl. unfold correct_row_frame, remedy_manquantes, remedy_aberrantes,
      remedy_doublons.
    destruct (contains "manquantes" (Probleme row)); simpl;
      [now rewrite Habs|].
    destruct (contains "aberrantes" (Probleme row)); simpl;
      [now rewrite Habs|].
    destruct (contains "Doublons" (Probleme row)); simpl;
      [now rewrite Habs|].
    discriminate.
  - intros H1 H2 H3. simpl. unfold correct_row_frame.
    rewrite H1, H2, H3. reflexivity.
Qed.

Lemma row_on_absent_column_witness :
  ~ In "Z" (columns df_A) /\
  correct df_A [mkIssue "Z" lbl_doublons 1 "Supprimer doublons";
                mkIssue "A" lbl_manquantes 1 "Remplacer par moyenne/médiane"]
  = Raise KeyError /\
  correct df_A [mkIssue "A" "Inconnu" 1 ""] = correct df_A [].
Proof.
  assert (H : ~ In "Z" (columns df_A))
    by (simpl; intuition discriminate).
  split; [exact H|]. split.
  - exact (proj1 (row_on_absent_column_or_unknown_problem
                    df_A (mkIssue "Z" lbl_doublons 1 "Supprimer doublons") _)
                 H eq_refl).
  - exact (proj2 (row_on_absent_column_or_unknown_problem
                    df_A (mkIssue "A" "Inconnu" 1 "") [])
                 eq_refl eq_refl eq_refl).
Defined.

(** ** Columns flagged for duplicates end without repeats *)

Lemma duplicated_from_seen_less (seen seen' l : list cell) :
  (forall x, existsb (cell_eqb x) seen = true ->
             existsb (cell_eqb x) seen' = true) ->
  mask_any (duplicated_from seen' l) = false ->
  mask_any (duplicated_from seen l) = false.
Proof.
  revert seen seen'. induction l as [|y l IH]; intros seen seen' Hinc;
    [reflexivity|].
  cbn [duplicated_from].
  destruct (existsb (cell_eqb y) seen') eqn:E'; [discriminate|].
  destruct (existsb (cell_eqb y) seen) eqn:E;
    [rewrite (Hinc _ E) in E'; discriminate|].
  unfold mask_any. cbn [existsb orb]. apply IH.
  intros x Hx. simpl in *. apply orb_true_iff in Hx. apply orb_true_iff.
  destruct Hx as [Hx|Hx]; [left; exact Hx | right; auto].
Qed.

(** Leaving rows out of a column without repeats creates no repeat. *)
Lemma keep_rows_no_repeat (mask : list bool) (seen cs : list cell) :
  mask_any (duplicated_from seen cs) = false ->
  mask_any (duplicated_from seen (keep_rows mask cs)) = false.
Proof.
  revert mask seen. induction cs as [|c cs IH]; intros mask seen.
  - destruct mask; reflexivity.
  - destruct mask as [|b mask]; [reflexivity|].
    cbn [duplicated_from keep_rows].
    destruct (existsb (cell_eqb c) seen) eqn:E; [discriminate|].
    unfold mask_any. cbn [existsb orb]. intro H. destruct b.
    + cbn [duplicated_from]. rewrite E. cbn [existsb orb]. now apply IH.
    + apply IH. apply (duplicated_from_seen_less seen (c :: seen)); [|exact H].
      intros x Hx. simpl. rewrite Hx. apply orb_true_r.
Qed.

Lemma correct_row_stages (row : issue) (d d' : DataFrame) :
  correct_row_frame row d = Ok d' ->
  exists d1 d2,
    (if contains "manquantes" (Probleme row)
     then remedy_manquantes (Colonne row) d else Ok d) = Ok d1 /\
    (if contains "aberrantes" (Probleme row)
     then remedy_aberrantes (Colonne row) d1 else Ok d1) = Ok d2 /\
    (if contains "Doublons" (Probleme row)
     then remedy_doublons (Colonne row) d2 else Ok d2) = Ok d'.
Proof.
  unfold correct_row_frame. intro H.
  destruct (if contains "manquantes" (Probleme row)
            then remedy_manquantes (Colonne row) d else Ok d)
    as [d1|e] eqn:E1; [|discriminate]. simpl in H.
  destruct (if contains "aberrantes" (Probleme row)
            then remedy_aberrantes (Colonne row) d1 else Ok d1)
    as [d2|e] eqn:E2; [|discriminate]. simpl in H.
  exists d1, d2. auto.
Qed.

Lemma remedy_doublons_no_repeat (c : string) (d d' : DataFrame) :
  remedy_doublons c d = Ok d' -> no_repeat_in c d'.
Proof.
  unfold remedy_doublons. destruct (getitem d c) as [s|e] eqn:Hg; simpl;
    [|discriminate].
  intro H. injection H as <-.
  eexists. split; [apply getitem_frame_rows; exact Hg|].
  simpl. unfold duplicated. apply kept_cells_no_repeat.
Qed.

Lemma remedy_doublons_other_no_repeat (c col : string) (d d' : DataFrame) :
  remedy_doublons col d = Ok d' -> no_repeat_in c d -> no_repeat_in c d'.
Proof.
  unfold remedy_doublons. destruct (getitem d col) as [s|e] eqn:Hg; simpl;
    [|discriminate].
  intro H. injection H as <-. intros [sc [Hc Hn]].
  eexists. split; [apply getitem_frame_rows; exact Hc|].
  simpl. unfold duplicated in *. now apply keep_rows_no_repeat.
Qed.

Lemma correct_row_other_no_repeat (c : string) (row : issue)
  (d d' : DataFrame) :
  Colonne row <> c ->
  correct_row_frame row d = Ok d' -> no_repeat_in c d -> no_repeat_in c d'.
Proof.
  intros Hne H Hn.
  assert (Hne' : c <> Colonne row) by congruence.
  destruct (correct_row_stages _ _ _ H) as [d1 [d2 [E1 [E2 E3]]]].
  assert (H1 : no_repeat_in c d1).
  { destruct (contains "manquantes" (Probleme row)).
    - destruct Hn as [s [Hg Hs]]. exists s. split; [|exact Hs].
      now rewrite (remedy_manquantes_other _ _ _ _ Hne' E1).
    - now injection E1 as <-. }
  assert (H2 : no_repeat_in c d2).
  { destruct (contains "aberrantes" (Probleme row)).
    - destruct H1 as [s [Hg Hs]]. exists s. split; [|exact Hs].
      now rewrite (remedy_aberrantes_other _ _ _ _ Hne' E2).
    - now injection E2 as <-. }
  destruct (contains "Doublons" (Probleme row)).
  - now apply (remedy_doublons_other_no_repeat c _ _ _ E3).
  - now injection E3 as <-.
Qed.

Lemma correct_other_no_repeat (c : string) (post : list issue)
  (d d' : DataFrame) :
  Forall (fun r => Colonne r <> c) post ->
  correct d post = Ok d' -> no_repeat_in c d -> no_repeat_in c d'.
Proof.
  revert d. induction post as [|row post IH]; intros d Hall; simpl.
  - intro H. now injection H as <-.
  - apply Forall_cons_iff in Hall. destruct Hall as [Hrow Hrest].
    destruct (correct_row_frame row d) as [d1|e] eqn:E; [|discriminate].
    simpl. intros H Hn. apply (IH d1 Hrest H).
    now apply (correct_row_other_no_repeat c row d).
Qed.

(** Where the duplicates issue of a column stands in the report: no later
    row is about that column. *)
Lemma doublons_issue_position (df : DataFrame) (c : string) (s : Series) :
  NoDup (columns df) -> In (c, s) df ->
  mask_any (duplicated (values s)) = true ->
  exists pre row post,
    analyse_data df = pre ++ row :: post /\
    Colonne row = c /\ Probleme row = lbl_doublons /\
    Forall (fun r => Colonne r <> c) post.
Proof.
  induction df as [|[c0 s0] df IH]; simpl; [contradiction|].
  intros Hnd Hin Hdup. inversion Hnd as [|? ? Hnotin Hnd']; subst.
  rewrite analyse_data_cons. destruct Hin as [Heq|Hin].
  - injection Heq as -> ->. rewrite col_issues_eq, Hdup.
    match goal with
    | |- context [(?a ++ ?b ++ [?i]) ++ _] =>
        exists (a ++ b), i, (analyse_data df)
    end.
    split; [rewrite <- !app_assoc; reflexivity|].
    split; [reflexivity|]. split; [reflexivity|].
    apply Forall_forall. intros r Hr Hc. apply Hnotin.
    apply analyse_data_In in Hr. destruct Hr as [sr [Hsr _]].
    rewrite Hc in Hsr. unfold columns. apply in_map_iff.
    exists (c, sr). auto.
  - destruct (IH Hnd' Hin Hdup) as [pre [row [post [E [Hc [Hp Hpost]]]]]].
    exists (col_issues c0 s0 ++ pre), row, post.
    rewrite E, <- app_assoc. auto.
Qed.

Lemma flagged_column_no_repeat (df df' : DataFrame) (c : string) :
  NoDup (columns df) ->
  correct df (analyse_data df) = Ok df' ->
  In (c, lbl_doublons) (report_keys (analyse_data df)) ->
  no_repeat_in c df'.
Proof.
  intros Hnd Hrun Hkey.
  apply report_keys_In in Hkey. destruct Hkey as [i [Hin [Hc Hp]]].
  apply analyse_data_In in Hin. destruct Hin as [s [Hs Hi]].
  rewrite Hc in Hs, Hi.
  destruct (proj1 (col_issues_doublons _ _ _) (conj Hi Hp)) as [_ Hdup].
  destruct (doublons_issue_position _ _ _ Hnd Hs Hdup)
    as [pre [row [post [E [Hrc [Hrp Hpost]]]]]].
  rewrite E, correct_app in Hrun.
  destruct (correct df pre) as [d1|e]; [|discriminate]. simpl in Hrun.
  destruct (correct_row_frame row d1) as [d2|e] eqn:E2; [|discriminate].
  simpl in Hrun.
  rewrite (correct_row_doublons _ _ Hrp), Hrc in E2.
  apply remedy_doublons_no_repeat in E2.
  exact (correct_other_no_repeat c post d2 df' Hpost Hrun E2).
Qed.

(** X14.  After the pass over its own report, every column for which the
    report held a duplicates issue repeats no value: the rows dropped for
    that column are not brought back, and the remedies applied afterwards
    for the later columns only drop further rows or rewrite other
    columns. *)
Theorem flagged_column_ends_without_repeats
  (df df' : DataFrame) (c : string) :
  NoDup (columns df) ->
  correct df (analyse_data df) = Ok df' ->
  In (c, lbl_doublons) (report_keys (analyse_data df)) ->
  exists s',
    getitem df' c = Ok s' /\
    forall k, ~ repeats_earlier (values s') k.
Proof.
  intros Hnd Hrun Hkey.
  destruct (flagged_column_no_repeat _ _ _ Hnd Hrun Hkey) as [s' [Hg Hn]].
  exists s'. split; [exact Hg|].
  intros k Hk. apply duplicated_nth, nth_error_In, mask_any_In in Hk.
  congruence.
Qed.

Lemma flagged_column_ends_without_repeats_witness :
  NoDup (columns df_mixed) /\
  In ("Y", lbl_doublons) (report_keys (analyse_data df_mixed)) /\
  exists df' s',
    correct df_mixed (analyse_data df_mixed) = Ok df' /\
    getitem df' "Y" = Ok s' /\
    forall k, ~ repeats_earlier (values s') k.
Proof.
  assert (H1 : NoDup (columns df_mixed)).
  { repeat constructor; simpl; intuition discriminate. }
  assert (H3 : In ("Y", lbl_doublons) (report_keys (analyse_data df_mixed))).
  { vm_compute. right. right. left. reflexivity. }
  split; [exact H1 | split; [exact H3|]].
  eexists.
  assert (H2 : correct df_mixed (analyse_data df_mixed) = Ok ?[d])
    by (vm_compute; reflexivity).
  destruct (flagged_column_ends_without_repeats _ _ "Y" H1 H2 H3)
    as [s' [Hg Hn]].
  exists s'. split; [exact H2 | split; [exact Hg | exact Hn]].
Defined.

(** X15.  Diagnosed again after the pass, the frame shows no duplicates
    issue for any column that had one in the report the pass was run
    on. *)
Theorem duplicates_issue_gone_after_pass
  (df df' : DataFrame) (c : string) :
  NoDup (columns df) ->
  correct df (analyse_data df) = Ok df' ->
  In (c, lbl_doublons) (report_keys (analyse_data df)) ->
  ~ In (c, lbl_doublons) (report_keys (analyse_data df')).
Proof.
  intros Hnd Hrun Hkey Hkey'.
  destruct (flagged_column_no_repeat _ _ _ Hnd Hrun Hkey) as [s' [Hg Hn]].
  assert (Hnd' : NoDup (columns df')).
  { rewrite signature_columns, (correct_signature _ _ _ Hrun),
      <- signature_columns. exact Hnd. }
  apply report_keys_In in Hkey'. destruct Hkey' as [i [Hin [Hc Hp]]].
  apply analyse_data_In in Hin. destruct Hin as [s [Hs Hi]].
  rewrite Hc in Hs, Hi.
  destruct (proj1 (col_issues_doublons _ _ _) (conj Hi Hp)) as [_ Hdup].
  rewrite (In_getitem _ _ _ Hnd' Hs) in Hg. injection Hg as <-.
  congruence.
Qed.

Lemma duplicates_issue_gone_witness :
  NoDup (columns df_mixed) /\
  In ("G", lbl_doublons) (report_keys (analyse_data df_mixed)) /\
  exists df',
    correct df_mixed (analyse_data df_mixed) = Ok df' /\
    ~ In ("G", lbl_doublons) (report_keys (analyse_data df')).
Proof.
  assert (H1 : NoDup (columns df_mixed)).
  { repeat constructor; simpl; intuition discriminate. }
  assert (H3 : In ("G", lbl_doublons) (report_keys (analyse_data df_mixed))).
  { vm_compute. right. right. right. left. reflexivity. }
  split; [exact H1 | split; [exact H3|]].
  eexists.
  assert (H2 : correct df_mixed (analyse_data df_mixed) = Ok ?[d])
    by (vm_compute; reflexivity).
  split; [exact H2|].
  exact (duplicates_issue_gone_after_pass _ _ "G" H1 H2 H3).
Defined.

(** ** One entry per column and kind *)

Lemma subseq_In {A} (l1 l2 : list A) (x : A) :
  subseq l1 l2 -> In x l1 -> In x l2.
Proof.
  intro H. induction H; simpl; intuition.
Qed.

Lemma subseq_NoDup {A} (l1 l2 : list A) :
  subseq l1 l2 -> NoDup l2 -> NoDup l1.
Proof.
  intro H. induction H; intro Hnd.
  - constructor.
  - inversion Hnd; auto.
  - inversion Hnd as [|? ? Hnotin Hnd']; subst. constructor; [|auto].
    intro Hin. apply Hnotin. eapply subseq_In; eassumption.
Qed.

Lemma subseq_length {A} (l1 l2 : list A) :
  subseq l1 l2 -> length l1 <= length l2.
Proof. intro H. induction H; simpl; lia. Qed.

Lemma all_checks_In (df : DataFrame) (c p : string) :
  In (c, p) (all_checks df) -> In c (columns df).
Proof.
  unfold all_checks, columns. rewrite in_flat_map.
  intros [[c0 s0] [Hin H]]. simpl in H.
  apply in_map_iff. exists (c0, s0). split; [|exact Hin].
  destruct H as [H|[H|[H|[]]]]; injection H as <- _; reflexivity.
Qed.

Lemma all_checks_NoDup (df : DataFrame) :
  NoDup (columns df) -> NoDup (all_checks df).
Proof.
  induction df as [|[c s] df IH]; simpl; intro Hnd; [constructor|].
  inversion Hnd as [|? ? Hnotin Hnd']; subst.
  fold (all_checks df).
  assert (Hrest : forall p, ~ In (c, p) (all_checks df))
    by (intros p H; apply Hnotin; eapply all_checks_In; exact H).
  repeat constructor; simpl; try (apply IH; exact Hnd').
  - intros [H|[H|H]]; [discriminate H | discriminate H | exact (Hrest _ H)].
  - intros [H|H]; [discriminate H | exact (Hrest _ H)].
  - apply Hrest.
Qed.

Lemma all_checks_length (df : DataFrame) :
  length (all_checks df) = 3 * length df.
Proof.
  induction df as [|[c s] df IH]; [reflexivity|].
  change (all_checks ((c, s) :: df))
    with ((c, lbl_manquantes) :: (c, lbl_aberrantes) :: (c, lbl_doublons)
          :: all_checks df).
  cbn [length]. rewrite IH. lia.
Qed.

(** X16.  The report holds at most three issues per column, and on a
    frame with distinct column labels no two of its issues are about the
    same column and the same problem. *)
Theorem report_one_issue_per_check (df : DataFrame) :
  length (analyse_data df) <= 3 * ncols df /\
  (NoDup (columns df) -> NoDup (report_keys (analyse_data df))).
Proof.
  pose proof (analyse_data_order df) as Hsub. split.
  - apply subseq_length in Hsub. unfold report_keys in Hsub.
    rewrite length_map, all_checks_length in Hsub.
    unfold ncols, columns. now rewrite length_map.
  - intro Hnd. eapply subseq_NoDup; [exact Hsub|].
    now apply all_checks_NoDup.
Qed.

Lemma report_one_issue_per_check_witness :
  NoDup (columns df_mixed) /\
  NoDup (report_keys (analyse_data df_mixed)).
Proof.
  assert (H1 : NoDup (columns df_mixed)).
  { repeat constructor; simpl; intuition discriminate. }
  split; [exact H1|].
  exact (proj2 (report_one_issue_per_check df_mixed) H1).
Defined.

(** ** Rows are only dropped by the duplicates remedy *)

Lemma remedy_manquantes_rows_all (n : nat) (col : string) (d d' : DataFrame) :
  remedy_manquantes col d = Ok d' -> rows_all n d -> rows_all n d'.
Proof.
  unfold remedy_manquantes. destruct (getitem d col) as [s|e] eqn:E; simpl;
    [|discriminate].
  destruct (is_numeric (dtype_of s)); intro H; injection H as <-; [|auto].
  apply (setitem_rows_all n d col s); [exact E|].
  simpl. apply fillna_length.
Qed.

Lemma remedy_aberrantes_rows_all (n : nat) (col : string) (d d' : DataFrame) :
  remedy_aberrantes col d = Ok d' -> rows_all n d -> rows_all n d'.
Proof.
  unfold remedy_aberrantes. destruct (getitem d col) as [s|e] eqn:E; simpl;
    [|discriminate].
  destruct (is_numeric (dtype_of s)); [|discriminate].
  intro H; injection H as <-.
  apply (setitem_rows_all n d col s); [exact E|].
  simpl. apply np_where_length. apply length_map.
Qed.

Lemma correct_row_keeps_rows (n : nat) (row : issue) (d d' : DataFrame) :
  contains "Doublons" (Probleme row) = false ->
  correct_row_frame row d = Ok d' -> rows_all n d -> rows_all n d'.
Proof.
  intros Hno H Hall.
  destruct (correct_row_stages _ _ _ H) as [d1 [d2 [E1 [E2 E3]]]].
  rewrite Hno in E3. injection E3 as <-.
  assert (H1 : rows_all n d1).
  { destruct (contains "manquantes" (Probleme row)).
    - now apply (remedy_manquantes_rows_all n _ _ _ E1).
    - now injection E1 as <-. }
  destruct (contains "aberrantes" (Probleme row)).
  - now apply (remedy_aberrantes_rows_all n _ _ _ E2).
  - now injection E2 as <-.
Qed.

(** X17.  Rows are dropped by the duplicates remedy and by nothing else:
    a pass over a report none of whose rows asks for it leaves every
    column with the number of rows it had. *)
Theorem pass_without_doublons_keeps_rows
  (n : nat) (df df' : DataFrame) (diag : list issue) :
  rows_all n df ->
  Forall (fun row => contains "Doublons" (Probleme row) = false) diag ->
  correct df diag = Ok df' ->
  rows_all n df' /\ nrows df' = nrows df.
Proof.
  intros Hall Hno Hrun.
  assert (Hall' : rows_all n df').
  { revert df Hall Hrun. induction diag as [|row diag IH]; intros df Hall;
      simpl.
    - intro H. now injection H as <-.
    - apply Forall_cons_iff in Hno. destruct Hno as [Hrow Hrest].
      destruct (correct_row_frame row df) as [d1|e] eqn:E; [|discriminate].
      simpl. apply (IH Hrest).
      now apply (correct_row_keeps_rows n row df). }
  split; [exact Hall'|].
  pose proof (correct_signature _ _ _ Hrun) as Hsig.
  destruct df as [|[c s] df]; destruct df' as [|[c' s'] df'];
    try discriminate; [reflexivity|].
  apply Forall_cons_iff in Hall, Hall'. simpl in *.
  destruct Hall as [-> _]. exact (proj1 Hall').
Qed.

Lemma pass_without_doublons_witness :
  rows_all 4 df_A /\
  Forall (fun row => contains "Doublons" (Probleme row) = false)
         (analyse_data df_A) /\
  exists df',
    correct df_A (analyse_data df_A) = Ok df' /\
    rows_all 4 df' /\ nrows df' = nrows df_A.
Proof.
  assert (H1 : rows_all 4 df_A) by (repeat constructor).
  assert (H2 : Forall (fun row => contains "Doublons" (Probleme row) = false)
                      (analyse_data df_A))
    by (vm_compute; repeat constructor).
  split; [exact H1 | split; [exact H2|]]. eexists.
  assert (H3 : correct df_A (analyse_data df_A) = Ok ?[d])
    by (vm_compute; reflexivity).
  split; [exact H3|].
  exact (pass_without_doublons_keeps_rows 4 df_A _ _ H1 H2 H3).
Defined.

(** ** The report against the rules of detection *)

Lemma outlier_needs_two_numbers (cs : list cell) :
  0 < mask_sum (outlier_mask cs) -> 2 <= length (present cs).
Proof.
  intro H. destruct (le_lt_dec 2 (length (present cs))) as [Hle|Hlt];
    [exact Hle|].
  exfalso. rewrite mask_sum_all_false in H; [lia|].
  intros b Hb. unfold outlier_mask in Hb. apply in_map_iff in Hb.
  destruct Hb as [c [<- Hc]]. apply gt_3std_no_spread; auto.
Qed.



(** ** Columns with fewer than two numbers *)

Lemma f64_mul_nan (x : f64) : f64_mul x S754_nan = S754_nan.
Proof. destruct x; reflexivity. Qed.

Lemma f64_gt_nan (x : f64) : f64_gt x S754_nan = false.
Proof. reflexivity. Qed.

Lemma f64_mask_without_std (xs : list f64) :
  f64_count xs < 2 -> forall b, In b (f64_outlier_mask xs) -> b = false.
Proof.
  intros Hc b Hb. unfold f64_outlier_mask, f64_std in Hb.
  assert (E : (f64_count xs <=? 1) = true) by (apply Nat.leb_le; lia).
  rewrite E, f64_mul_nan in Hb. apply in_map_iff in Hb.
  destruct Hb as [v [<- _]]. apply f64_gt_nan.
Qed.

(** C8 (counterexample).  Three cells holding [0x1.999999999999ap-504]
    make a column whose standard deviation is computed as 0, yet the
    check counts its three values as outliers and appends the issue: the
    mean comes out one unit in the last place above the values, and the
    squares of the deviations underflow to 0. *)
Lemma zero_std_column_is_flagged :
  f64_std f64_col_tiny = f64_zero /\
  f64_outlier_mask f64_col_tiny = [true; true; true] /\
  f64_diag_aberrantes "A" f64_col_tiny
  = [mkIssue "A" lbl_aberrantes 3 "Remplacer par médiane"].
Proof. vm_compute. repeat split. Qed.

(** C8 (amended).  In a numeric column with fewer than two numbers the
    standard deviation is undefined ([nan]), every comparison with it is
    false, and so no value is counted as an outlier and no outlier issue
    is appended; nothing is raised.  This holds of the exact reading of
    the check and of its binary64 evaluation alike.  A standard deviation
    of 0 gives no such guarantee. *)
Theorem no_outlier_below_two_numbers (s : Series) (xs : list f64) :
  length (present (values s)) < 2 ->
  f64_count xs < 2 ->
  (mask_sum (outlier_mask (values s)) = 0 /\
   forall diag col i,
     In i (analyse_col diag col s) -> Probleme i = lbl_aberrantes ->
     In i diag) /\
  (f64_std xs = S754_nan /\
   mask_sum (f64_outlier_mask xs) = 0 /\
   forall col, f64_diag_aberrantes col xs = []).
Proof.
  intros Hs Hxs.
  assert (H0 : mask_sum (outlier_mask (values s)) = 0).
  { destruct (mask_sum (outlier_mask (values s))) eqn:E; [reflexivity|].
    assert (Hp : 0 < mask_sum (outlier_mask (values s))) by lia.
    apply outlier_needs_two_numbers in Hp. lia. }
  assert (F0 : mask_sum (f64_outlier_mask xs) = 0)
    by (apply mask_sum_all_false, f64_mask_without_std; exact Hxs).
  split; [split; [exact H0|] | split; [|split; [exact F0|]]].
  - intros diag col i Hin Hp. rewrite analyse_col_app in Hin.
    apply in_app_iff in Hin. destruct Hin as [Hin|Hin]; [exact Hin|].
    exfalso.
    destruct (proj1 (col_issues_aberrantes _ _ _) (conj Hin Hp))
      as [_ [_ Hpos]].
    lia.
  - unfold f64_std.
    assert (E : (f64_count xs <=? 1) = true) by (apply Nat.leb_le; lia).
    now rewrite E.
  - intro col. unfold f64_diag_aberrantes. now rewrite F0.
Qed.

Lemma no_outlier_below_two_numbers_witness :
  length (present (values col_one)) < 2 /\
  f64_count [S754_nan; f64_tiny] < 2 /\
  mask_sum (outlier_mask (values col_one)) = 0 /\
  mask_sum (f64_outlier_mask [S754_nan; f64_tiny]) = 0.
Proof.
  assert (H1 : length (present (values col_one)) < 2) by (simpl; lia).
  assert (H2 : f64_count [S754_nan; f64_tiny] < 2) by (vm_compute; lia).
  pose proof (no_outlier_below_two_numbers col_one _ H1 H2)
    as [[Ha _] [_ [Hb _]]].
  auto.
Defined.

(** ** The outlier remedy *)

Lemma outlier_mask_nothing_selected (cs : list cell) :
  length (present cs) < 2 ->
  np_where (map (gt_3std (mean cs) (variance cs)) cs) (median cs) cs = cs.
Proof.
  intro H. rewrite np_where_map.
  transitivity (map (fun c : cell => c) cs); [|apply map_id].
  apply map_ext_in. intros c Hc.
  rewrite gt_3std_no_spread; auto.
Qed.

Lemma f64_nan_not_selected (m t : f64) :
  f64_gt (f64_abs (f64_sub S754_nan m)) t = false.
Proof. destruct t; reflexivity. Qed.

(** The shape of the remedy in binary64: cells are kept or replaced by
    the median of the column, a missing cell is kept, and nothing is
    replaced when fewer than two cells hold a number. *)
Lemma f64_remedy_aberrantes_shape (xs : list f64) :
  length (f64_remedy_aberrantes xs) = length xs /\
  (forall k v, nth_error xs k = Some v ->
     nth_error (f64_remedy_aberrantes xs) k = Some v \/
     (f64_isnan v = false /\
      nth_error (f64_remedy_aberrantes xs) k = Some (f64_median xs))) /\
  (f64_count xs < 2 -> f64_remedy_aberrantes xs = xs).
Proof.
  unfold f64_remedy_aberrantes. split; [apply length_map|]. split.
  - intros k v Hk. rewrite nth_error_map, Hk. simpl.
    destruct v; try (rewrite f64_nan_not_selected; left; reflexivity);
      match goal with
      | |- context [if ?b then _ else _] => destruct b
      end; auto.
  - intro Hc. unfold f64_std.
    assert (E : (f64_count xs <=? 1) = true) by (apply Nat.leb_le; lia).
    rewrite E, f64_mul_nan.
    transitivity (map (fun v : f64 => v) xs); [|apply map_id].
    apply map_ext. intro v. now rewrite f64_gt_nan.
Qed.




(** ** The missing-value remedy, when the median is defined *)

(** In binary64 the median of a column whose middle values are the two
    infinities is [nan], and the remedy then leaves the missing cell
    missing although the column holds values. *)
Lemma f64_median_of_opposite_infinities :
  f64_median f64_col_infs = S754_nan /\
  f64_remedy_manquantes f64_col_infs = f64_col_infs.
Proof. vm_compute. split; reflexivity. Qed.

Lemma f64_remedy_manquantes_fills (xs : list f64) :
  f64_isnan (f64_median xs) = false ->
  f64_count (f64_remedy_manquantes xs) = length xs /\
  forall k v, nth_error xs k = Some v ->
    nth_error (f64_remedy_manquantes xs) k
    = Some (if f64_isnan v then f64_median xs else v).
Proof.
  intro Hm. unfold f64_remedy_manquantes. split.
  - unfold f64_count. set (med := f64_median xs) in *. clearbody med.
    induction xs as [|v xs IH]; [reflexivity|].
    cbn [map filter]. destruct (f64_isnan v) eqn:Ev.
    + rewrite Hm. simpl. now rewrite IH.
    + rewrite Ev. simpl. now rewrite IH.
  - intros k v Hk. now rewrite nth_error_map, Hk.
Qed.

(** C5 (amended).  When the report of a frame is a single missing-value
    issue, for a numeric column whose median is defined (not [nan]), the
    corrected frame has no missing cell in that column, every cell that
    was missing holds the median the column had before the correction,
    and the other cells of the column are kept.  The same holds of the
    remedy carried out in binary64 on a column whose median is not
    [nan]. *)
Theorem manquantes_round_trip
  (df : DataFrame) (row : issue) (s : Series) (m : Q) (xs : list f64) :
  analyse_data df = [row] ->
  Probleme row = lbl_manquantes ->
  getitem df (Colonne row) = Ok s ->
  is_numeric (dtype_of s) = true ->
  median (values s) = Some m ->
  f64_isnan (f64_median xs) = false ->
  (exists s',
    correct df (analyse_data df) = Ok (setitem df (Colonne row) s') /\
    getitem (setitem df (Colonne row) s') (Colonne row) = Ok s' /\
    isnull_sum s' = 0 /\
    length (values s') = length (values s) /\
    forall k c, nth_error (values s) k = Some c ->
      nth_error (values s') k = Some (if isnull c then Num m else c)) /\
  (f64_count (f64_remedy_manquantes xs) = length xs /\
   forall k v, nth_error xs k = Some v ->
     nth_error (f64_remedy_manquantes xs) k
     = Some (if f64_isnan v then f64_median xs else v)).
Proof.
  intros Hdiag Hp Hs Hnum Hm Hf.
  split; [|now apply f64_remedy_manquantes_fills].
  exists (mkSeries (dtype_of s) (fillna (Some m) (values s))).
  split; [|split; [|split; [|split]]].
  - rewrite Hdiag, correct_single, (correct_row_manquantes _ _ Hp).
    unfold remedy_manquantes. rewrite Hs. simpl. rewrite Hnum, Hm.
    reflexivity.
  - eapply getitem_setitem. exact Hs.
  - apply fillna_no_missing.
  - simpl. apply length_map.
  - intros k c Hk. simpl. rewrite nth_error_map, Hk. reflexivity.
Qed.

Lemma manquantes_round_trip_witness :
  analyse_data df_A
  = [mkIssue "A" lbl_manquantes 1 "Remplacer par moyenne/médiane"] /\
  getitem df_A "A" = Ok col_A /\
  is_numeric (dtype_of col_A) = true /\
  median (values col_A) = Some 2%Q /\
  f64_isnan (f64_median f64_col_A) = false /\
  f64_remedy_manquantes f64_col_A
  = [f64_of_Z 1; f64_of_Z 2; f64_of_Z 4; f64_of_Z 2] /\
  correct df_A (analyse_data df_A)
  = Ok [("A", mkSeries Float64 [Num 1; Num 2; Num 4; Num 2]); ("K", col_K)] /\
  exists s',
    correct df_A (analyse_data df_A) = Ok (setitem df_A "A" s') /\
    isnull_sum s' = 0.
Proof.
  assert (H1 : analyse_data df_A
               = [mkIssue "A" lbl_manquantes 1
                    "Remplacer par moyenne/médiane"])
    by (vm_compute; reflexivity).
  assert (H3 : getitem df_A
                 (Colonne (mkIssue "A" lbl_manquantes 1
                             "Remplacer par moyenne/médiane"))
               = Ok col_A) by reflexivity.
  assert (H4 : is_numeric (dtype_of col_A) = true) by reflexivity.
  assert (H5 : median (values col_A) = Some 2%Q) by (vm_compute; reflexivity).
  split; [exact H1 | split; [exact H3 | split; [exact H4|]]].
  assert (H6 : f64_isnan (f64_median f64_col_A) = false)
    by (vm_compute; reflexivity).
  split; [exact H5 | split; [exact H6|]].
  split; [vm_compute; reflexivity | split; [vm_compute; reflexivity|]].
  destruct (manquantes_round_trip df_A _ col_A 2 f64_col_A
              H1 eq_refl H3 H4 H5 H6)
    as [[s' [Hrun [_ [Hnone _]]]] _].
  exists s'. split; [exact Hrun | exact Hnone].
Defined.

(** ** Missing cells and the duplicates remedy *)

Lemma median_of_nothing (cs : list cell) : present cs = [] -> median cs = None.
Proof. intro H. unfold median. now rewrite H. Qed.

(** On a column that is not numeric, or holds no number, the
    missing-value remedy leaves the frame as it is. *)
Lemma remedy_manquantes_fills_nothing
  (col : string) (d : DataFrame) (s : Series) :
  getitem d col = Ok s ->
  is_numeric (dtype_of s) = false \/ present (values s) = [] ->
  remedy_manquantes col d = Ok d.
Proof.
  intros Hg Hcase. unfold remedy_manquantes. rewrite Hg. simpl.
  destruct (is_numeric (dtype_of s)) eqn:En; [|reflexivity].
  destruct Hcase as [Hn|He]; [discriminate|].
  rewrite (median_of_nothing _ He). simpl. rewrite series_eta.
  now rewrite (setitem_same _ _ _ Hg).
Qed.



